(** * codelab_adapter_client: MessageNode / AdapterNode / TokenBucket

    A shallow embedding of [codelab_adapter_client/__init__.py] and of the
    [TokenBucket] class of [codelab_adapter_client/utils.py], together with
    the properties of the natural-language specification that concern them.

    Layout: Python data ([Py]), UTF-8 text ([Utf8]), the MessagePack codec
    called by the node ([Msgpack]), the node classes ([Node]), the rate
    limiter (over binary64 floats in [Bucket64], over exact rationals in
    [Bucket]); then the lemmas. *)

From Stdlib Require Import ZArith List String Ascii Bool Lia QArith Lqa SpecFloat.
Import ListNotations.

Local Open Scope Z_scope.
Local Open Scope list_scope.

(* ------------------------------------------------------------------ *)
(** ** Python data *)

Module Py.

(** A [bytes] object. *)
Definition bytes := list ascii.

Definition byte_val (b : ascii) : Z := Z.of_N (N_of_ascii b).
Definition byte_of (z : Z) : ascii := ascii_of_N (Z.to_N z).

(** The exceptions that the modelled code can raise.  [OutOfData],
    [ExtraData], [FormatError] and [StackError] are the classes of
    [msgpack.exceptions]; [Again] is [zmq.error.Again]. *)
Inductive exn : Type :=
| TypeError
| ValueError
| KeyError
| AttributeError
| AssertionError
| IndexError
| OverflowError
| UnicodeDecodeError
| KeyboardInterrupt
| ZMQError
| Again
| OutOfData
| ExtraData
| FormatError
| StackError.

Inductive result (A : Type) : Type :=
| Ok (a : A)
| Err (e : exn).
Arguments Ok {A} a.
Arguments Err {A} e.

(** The Python objects that travel as payloads.  A [str] is held as its
    UTF-8 encoding, so that [str.encode()] is [list_ascii_of_string] and
    [bytes.decode()] is a validity check followed by
    [string_of_list_ascii].  A [float] is held as its IEEE-754 binary64
    bit pattern.  A [dict] keeps its insertion order, as Python's does. *)
#[local] Unset Elimination Schemes.
Inductive value : Type :=
| VNone
| VBool (b : bool)
| VInt (n : Z)
| VFloat (bits : Z)
| VStr (s : string)
| VBytes (b : bytes)
| VList (l : list value)
| VDict (d : list (string * value))
| VExt (code : Z) (data : bytes).
#[local] Set Elimination Schemes.

(** Induction on objects, with the hypothesis available for every element
    of a [list] and every value of a [dict]. *)
Section ValueInd.

Variable P : value -> Prop.
Hypothesis HNone : P VNone.
Hypothesis HBool : forall b, P (VBool b).
Hypothesis HInt : forall n, P (VInt n).
Hypothesis HFloat : forall bits, P (VFloat bits).
Hypothesis HStr : forall s, P (VStr s).
Hypothesis HBytes : forall b, P (VBytes b).
Hypothesis HList : forall l, Forall P l -> P (VList l).
Hypothesis HDict : forall d, Forall (fun kv => P (snd kv)) d -> P (VDict d).
Hypothesis HExt : forall c b, P (VExt c b).

Fixpoint value_ind (v : value) : P v :=
  match v with
  | VNone => HNone
  | VBool b => HBool b
  | VInt n => HInt n
  | VFloat bits => HFloat bits
  | VStr s => HStr s
  | VBytes b => HBytes b
  | VList l =>
      HList l ((fix all (l : list value) : Forall P l :=
                  match l with
                  | [] => Forall_nil P
                  | x :: l' => Forall_cons x (value_ind x) (all l')
                  end) l)
  | VDict d =>
      HDict d ((fix all (d : list (string * value))
                  : Forall (fun kv => P (snd kv)) d :=
                  match d with
                  | [] => Forall_nil _
                  | kv :: d' => Forall_cons kv (value_ind (snd kv)) (all d')
                  end) d)
  | VExt c b => HExt c b
  end.

End ValueInd.

(** *** Insertion-ordered dictionaries with [str] keys *)

Definition dict (A : Type) := list (string * A).

Fixpoint dict_get {A} (d : dict A) (k : string) : option A :=
  match d with
  | [] => None
  | (k', v) :: d' => if String.eqb k' k then Some v else dict_get d' k
  end.

(** [d[k] = v]: overwrite in place when the key exists, append otherwise. *)
Fixpoint dict_set {A} (d : dict A) (k : string) (v : A) : dict A :=
  match d with
  | [] => [(k, v)]
  | (k', v') :: d' =>
      if String.eqb k' k then (k', v) :: d' else (k', v') :: dict_set d' k v
  end.

Definition dict_keys {A} (d : dict A) : list string := map fst d.

Fixpoint mem_string (k : string) (l : list string) : bool :=
  match l with
  | [] => false
  | k' :: l' => String.eqb k' k || mem_string k l'
  end.

Fixpoint nodup_keys (l : list string) : bool :=
  match l with
  | [] => true
  | k :: l' => negb (mem_string k l') && nodup_keys l'
  end.

(** [payload.get(k)]: a missing key gives [None]. *)
Definition get_or_none (d : dict value) (k : string) : value :=
  match dict_get d k with
  | Some v => v
  | None => VNone
  end.

(** Truth value of an object, as tested by [if x] and [not x]. *)
Definition truthy (v : value) : bool :=
  match v with
  | VNone => false
  | VBool b => b
  | VInt n => negb (n =? 0)
  | VFloat bits => negb ((bits =? 0) || (bits =? 2 ^ 63))
  | VStr s => negb (String.eqb s EmptyString)
  | VBytes b => match b with [] => false | _ => true end
  | VList l => match l with [] => false | _ => true end
  | VDict d => match d with [] => false | _ => true end
  | VExt _ _ => true
  end.

(** [x == s] for a [str] [s]: only an equal [str] compares equal. *)
Definition eq_str (v : value) (s : string) : bool :=
  match v with
  | VStr s' => String.eqb s' s
  | _ => false
  end.

(** [type(x) is str] *)
Definition is_str (v : value) : bool :=
  match v with
  | VStr _ => true
  | _ => false
  end.

End Py.
Import Py.

(* ------------------------------------------------------------------ *)
(** ** UTF-8 *)

Module Utf8.

Definition between (lo b hi : Z) : bool := (lo <=? b) && (b <=? hi).

Definition cont (b : ascii) : bool := between 0x80 (byte_val b) 0xBF.

(** Well-formed UTF-8 byte sequences (strict: no overlong forms, no
    surrogates, nothing above U+10FFFF), which is what [bytes.decode()]
    accepts. *)
Fixpoint valid (bs : bytes) : bool :=
  match bs with
  | [] => true
  | b1 :: r1 =>
      let x := byte_val b1 in
      if x <=? 0x7F then valid r1
      else
        match r1 with
        | [] => false
        | b2 :: r2 =>
            let y := byte_val b2 in
            if between 0xC2 x 0xDF then cont b2 && valid r2
            else
              match r2 with
              | [] => false
              | b3 :: r3 =>
                  if x =? 0xE0 then between 0xA0 y 0xBF && cont b3 && valid r3
                  else if between 0xE1 x 0xEC then cont b2 && cont b3 && valid r3
                  else if x =? 0xED then between 0x80 y 0x9F && cont b3 && valid r3
                  else if between 0xEE x 0xEF then cont b2 && cont b3 && valid r3
                  else
                    match r3 with
                    | [] => false
                    | b4 :: r4 =>
                        if x =? 0xF0
                        then between 0x90 y 0xBF && cont b3 && cont b4 && valid r4
                        else if between 0xF1 x 0xF3
                        then cont b2 && cont b3 && cont b4 && valid r4
                        else if x =? 0xF4
                        then between 0x80 y 0x8F && cont b3 && cont b4 && valid r4
                        else false
                    end
              end
        end
  end.

(** [s.encode()] *)
Definition encode (s : string) : bytes := list_ascii_of_string s.

(** [b.decode()] *)
Definition decode (b : bytes) : result string :=
  if valid b then Ok (string_of_list_ascii b) else Err UnicodeDecodeError.

End Utf8.

(* ------------------------------------------------------------------ *)
(** ** The MessagePack codec *)

(** Modelled from the spec: [msgpack.packb] and [msgpack.unpackb] are the
    envelope codec of the specification (section 4.2).  They belong to the
    [msgpack] package, which is not among the sources of this repository.
    The model follows the MessagePack wire format for the calls the node
    makes, [packb(payload, use_bin_type=True)] and
    [unpackb(frame, raw=False)]: the packer chooses the shortest encoding
    and refuses integers outside 64 bits, items of 2^32 bytes or elements
    and more than [DEFAULT_RECURSE_LIMIT] levels of nesting; the unpacker
    accepts every format family, reads exactly one object and refuses
    trailing bytes.  Map keys are restricted to [str]. *)
Module Msgpack.

Definition DEFAULT_RECURSE_LIMIT : Z := 511.
Definition EMBED_STACK_SIZE : nat := 1024.

(** *** Big-endian integers *)

Fixpoint be_bytes (k : nat) (n : Z) : bytes :=
  match k with
  | O => []
  | S k' => byte_of ((n / 256 ^ Z.of_nat k') mod 256) :: be_bytes k' n
  end.

Definition be_val (bs : bytes) : Z :=
  fold_left (fun acc b => acc * 256 + byte_val b) bs 0.

Definition len {A} (l : list A) : Z := Z.of_nat (List.length l).

(** *** Packer *)

Definition rbind {A B} (r : result A) (k : A -> result B) : result B :=
  match r with
  | Ok a => k a
  | Err e => Err e
  end.

Definition pack_int (n : Z) : result bytes :=
  if (0 <=? n) && (n <? 0x80) then Ok [byte_of n]
  else if (-0x20 <=? n) && (n <? 0) then Ok [byte_of (n + 0x100)]
  else if (0x80 <=? n) && (n <=? 0xff) then Ok (byte_of 0xcc :: be_bytes 1 n)
  else if (-0x80 <=? n) && (n <? 0) then Ok (byte_of 0xd0 :: be_bytes 1 (n + 2 ^ 8))
  else if (0xff <? n) && (n <=? 0xffff) then Ok (byte_of 0xcd :: be_bytes 2 n)
  else if (-0x8000 <=? n) && (n <? -0x80)
  then Ok (byte_of 0xd1 :: be_bytes 2 (n + 2 ^ 16))
  else if (0xffff <? n) && (n <=? 0xffffffff) then Ok (byte_of 0xce :: be_bytes 4 n)
  else if (-0x80000000 <=? n) && (n <? -0x8000)
  then Ok (byte_of 0xd2 :: be_bytes 4 (n + 2 ^ 32))
  else if (0xffffffff <? n) && (n <=? 0xffffffffffffffff)
  then Ok (byte_of 0xcf :: be_bytes 8 n)
  else if (-0x8000000000000000 <=? n) && (n <? -0x80000000)
  then Ok (byte_of 0xd3 :: be_bytes 8 (n + 2 ^ 64))
  else Err OverflowError.

Definition str_header (n : Z) : result bytes :=
  if n <=? 0x1f then Ok [byte_of (0xa0 + n)]
  else if n <=? 0xff then Ok (byte_of 0xd9 :: be_bytes 1 n)
  else if n <=? 0xffff then Ok (byte_of 0xda :: be_bytes 2 n)
  else if n <=? 0xffffffff then Ok (byte_of 0xdb :: be_bytes 4 n)
  else Err ValueError.

Definition bin_header (n : Z) : result bytes :=
  if n <=? 0xff then Ok (byte_of 0xc4 :: be_bytes 1 n)
  else if n <=? 0xffff then Ok (byte_of 0xc5 :: be_bytes 2 n)
  else if n <=? 0xffffffff then Ok (byte_of 0xc6 :: be_bytes 4 n)
  else Err ValueError.

Definition array_header (n : Z) : result bytes :=
  if n <=? 0x0f then Ok [byte_of (0x90 + n)]
  else if n <=? 0xffff then Ok (byte_of 0xdc :: be_bytes 2 n)
  else if n <=? 0xffffffff then Ok (byte_of 0xdd :: be_bytes 4 n)
  else Err ValueError.

Definition map_header (n : Z) : result bytes :=
  if n <=? 0x0f then Ok [byte_of (0x80 + n)]
  else if n <=? 0xffff then Ok (byte_of 0xde :: be_bytes 2 n)
  else if n <=? 0xffffffff then Ok (byte_of 0xdf :: be_bytes 4 n)
  else Err ValueError.

Definition ext_header (n code : Z) : result bytes :=
  if n =? 1 then Ok [byte_of 0xd4; byte_of code]
  else if n =? 2 then Ok [byte_of 0xd5; byte_of code]
  else if n =? 4 then Ok [byte_of 0xd6; byte_of code]
  else if n =? 8 then Ok [byte_of 0xd7; byte_of code]
  else if n =? 16 then Ok [byte_of 0xd8; byte_of code]
  else if n <=? 0xff then Ok (byte_of 0xc7 :: be_bytes 1 n ++ [byte_of code])
  else if n <=? 0xffff then Ok (byte_of 0xc8 :: be_bytes 2 n ++ [byte_of code])
  else if n <=? 0xffffffff then Ok (byte_of 0xc9 :: be_bytes 4 n ++ [byte_of code])
  else Err ValueError.

Definition pack_str (s : string) : result bytes :=
  let b := Utf8.encode s in
  rbind (str_header (len b)) (fun h => Ok (h ++ b)).

(** [Packer._pack(o, nest_limit)] *)
Fixpoint pack (o : value) (nest_limit : Z) {struct o} : result bytes :=
  if nest_limit <? 0 then Err ValueError
  else
    match o with
    | VNone => Ok [byte_of 0xc0]
    | VBool b => Ok [byte_of (if b then 0xc3 else 0xc2)]
    | VInt n => pack_int n
    | VFloat bits => Ok (byte_of 0xcb :: be_bytes 8 bits)
    | VStr s => pack_str s
    | VBytes b => rbind (bin_header (len b)) (fun h => Ok (h ++ b))
    | VList l =>
        rbind (array_header (len l)) (fun h =>
        rbind ((fix items (l : list value) : result bytes :=
                  match l with
                  | [] => Ok []
                  | x :: l' =>
                      rbind (pack x (nest_limit - 1)) (fun bx =>
                      rbind (items l') (fun br => Ok (bx ++ br)))
                  end) l) (fun body => Ok (h ++ body)))
    | VDict d =>
        rbind (map_header (len d)) (fun h =>
        rbind ((fix pairs (d : list (string * value)) : result bytes :=
                  match d with
                  | [] => Ok []
                  | (k, x) :: d' =>
                      rbind (if nest_limit - 1 <? 0 then Err ValueError
                             else pack_str k) (fun bk =>
                      rbind (pack x (nest_limit - 1)) (fun bx =>
                      rbind (pairs d') (fun br => Ok (bk ++ bx ++ br))))
                  end) d) (fun body => Ok (h ++ body)))
    | VExt code data =>
        if (0 <=? code) && (code <=? 127)
        then rbind (ext_header (len data) code) (fun h => Ok (h ++ data))
        else Err ValueError
    end.

(** [msgpack.packb(o, use_bin_type=True)] *)
Definition packb (o : value) : result bytes := pack o DEFAULT_RECURSE_LIMIT.

(** The two loops of [pack], under names of their own. *)
Definition pack_items (nest_limit : Z) : list value -> result bytes :=
  fix items (l : list value) : result bytes :=
    match l with
    | [] => Ok []
    | x :: l' =>
        rbind (pack x (nest_limit - 1)) (fun bx =>
        rbind (items l') (fun br => Ok (bx ++ br)))
    end.

Definition pack_pairs (nest_limit : Z) : list (string * value) -> result bytes :=
  fix pairs (d : list (string * value)) : result bytes :=
    match d with
    | [] => Ok []
    | (k, x) :: d' =>
        rbind (if nest_limit - 1 <? 0 then Err ValueError else pack_str k) (fun bk =>
        rbind (pack x (nest_limit - 1)) (fun bx =>
        rbind (pairs d') (fun br => Ok (bk ++ bx ++ br))))
    end.

(** *** The payloads of the specification *)

(** A [str] that exists as a Python object and fits a MessagePack item. *)
Definition text_ok (s : string) : bool :=
  Utf8.valid (Utf8.encode s) && (len (Utf8.encode s) <? 2 ^ 32).

(** The value kinds that the specification lists for payloads (integers,
    floats, strings, booleans, nulls, nested mappings and sequences), and
    [bytes], within the sizes of the format: integers of 64 bits, items
    and containers below 2^32, the keys of a mapping distinct. *)
Fixpoint supported (v : value) : bool :=
  match v with
  | VNone => true
  | VBool _ => true
  | VInt n => (- 2 ^ 63 <=? n) && (n <? 2 ^ 64)
  | VFloat bits => (0 <=? bits) && (bits <? 2 ^ 64)
  | VStr s => text_ok s
  | VBytes b => len b <? 2 ^ 32
  | VList l => (len l <? 2 ^ 32) && forallb supported l
  | VDict d =>
      (len d <? 2 ^ 32) && nodup_keys (dict_keys d) &&
      forallb (fun kv => text_ok (fst kv) && supported (snd kv)) d
  | VExt _ _ => false
  end.

(** Levels of nesting: 1 for a scalar. *)
Fixpoint height (v : value) : Z :=
  match v with
  | VList l => 1 + fold_right (fun x h => Z.max (height x) h) 0 l
  | VDict d => 1 + fold_right (fun kv h => Z.max (height (snd kv)) h) 0 d
  | _ => 1
  end.

(** *** Unpacker *)

(** The unpacker recurses on a fuel argument; [Fuel] reports that it ran
    out, which [unpackb_enough_fuel] below shows never happens. *)
Inductive failure : Type :=
| Fuel
| Thrown (e : exn).

Inductive uresult (A : Type) : Type :=
| UOk (a : A)
| UFail (f : failure).
Arguments UOk {A} a.
Arguments UFail {A} f.

Definition ubind {A B} (r : uresult A) (k : A -> uresult B) : uresult B :=
  match r with
  | UOk a => k a
  | UFail f => UFail f
  end.

Notation "x <- c ;; k" := (ubind c (fun x => k))
  (at level 61, c at next level, right associativity).

Definition throw {A} (e : exn) : uresult A := UFail (Thrown e).

Definition take (n : Z) (bs : bytes) : uresult (bytes * bytes) :=
  if len bs <? n then throw OutOfData
  else UOk (firstn (Z.to_nat n) bs, skipn (Z.to_nat n) bs).

Definition read_uint (k : Z) (bs : bytes) : uresult (Z * bytes) :=
  hr <- take k bs ;; UOk (be_val (fst hr), snd hr).

Definition read_int (k : Z) (bs : bytes) : uresult (Z * bytes) :=
  hr <- take k bs ;;
  let v := be_val (fst hr) in
  UOk (if v <? 2 ^ (8 * k - 1) then v else v - 2 ^ (8 * k), snd hr).

Definition read_str (n : Z) (bs : bytes) : uresult (value * bytes) :=
  hr <- take n bs ;;
  match Utf8.decode (fst hr) with
  | Ok s => UOk (VStr s, snd hr)
  | Err e => throw e
  end.

Definition read_bin (n : Z) (bs : bytes) : uresult (value * bytes) :=
  hr <- take n bs ;; UOk (VBytes (fst hr), snd hr).

(** [ExtType(code, data)] refuses a code outside 0..127. *)
Definition read_ext (n : Z) (bs : bytes) : uresult (value * bytes) :=
  cr <- read_int 1 bs ;;
  dr <- take n (snd cr) ;;
  if 0 <=? fst cr then UOk (VExt (fst cr) (fst dr), snd dr) else throw ValueError.

(** Widening of a binary32 bit pattern to binary64. *)
Definition f32_to_f64 (b : Z) : Z :=
  let s := b / 2 ^ 31 in
  let e := (b / 2 ^ 23) mod 256 in
  let m := b mod 2 ^ 23 in
  if e =? 255 then
    s * 2 ^ 63 + 2047 * 2 ^ 52 + (if m =? 0 then 0 else Z.lor (m * 2 ^ 29) (2 ^ 51))
  else if e =? 0 then
    if m =? 0 then s * 2 ^ 63
    else let p := Z.log2 m in
         s * 2 ^ 63 + (p + 874) * 2 ^ 52 + (m - 2 ^ p) * 2 ^ (52 - p)
  else s * 2 ^ 63 + (e + 896) * 2 ^ 52 + m * 2 ^ 29.

(** Insertion of the decoded pairs into a fresh [dict], in wire order. *)
Definition build_dict (l : list (string * value)) : dict value :=
  fold_left (fun d kv => dict_set d (fst kv) (snd kv)) l [].

Fixpoint unpack_obj (fuel stack : nat) (bs : bytes) {struct fuel}
  : uresult (value * bytes) :=
  match fuel with
  | O => UFail Fuel
  | S fuel' =>
      match bs with
      | [] => throw OutOfData
      | b :: rest =>
          let x := byte_val b in
          let uint k := nr <- read_uint k rest ;; UOk (VInt (fst nr), snd nr) in
          let sint k := nr <- read_int k rest ;; UOk (VInt (fst nr), snd nr) in
          let str k := nr <- read_uint k rest ;; read_str (fst nr) (snd nr) in
          let bin k := nr <- read_uint k rest ;; read_bin (fst nr) (snd nr) in
          let ext k := nr <- read_uint k rest ;; read_ext (fst nr) (snd nr) in
          let array n r :=
            if n =? 0 then UOk (VList [], r)
            else match stack with
                 | O => throw StackError
                 | S stack' =>
                     lr <- unpack_items fuel' stack' n r ;;
                     UOk (VList (fst lr), snd lr)
                 end in
          let map n r :=
            if n =? 0 then UOk (VDict [], r)
            else match stack with
                 | O => throw StackError
                 | S stack' =>
                     lr <- unpack_pairs fuel' stack' n r ;;
                     UOk (VDict (build_dict (fst lr)), snd lr)
                 end in
          if x <=? 0x7f then UOk (VInt x, rest)
          else if x <=? 0x8f then map (x - 0x80) rest
          else if x <=? 0x9f then array (x - 0x90) rest
          else if x <=? 0xbf then read_str (x - 0xa0) rest
          else if x =? 0xc0 then UOk (VNone, rest)
          else if x =? 0xc1 then throw FormatError
          else if x =? 0xc2 then UOk (VBool false, rest)
          else if x =? 0xc3 then UOk (VBool true, rest)
          else if x =? 0xc4 then bin 1
          else if x =? 0xc5 then bin 2
          else if x =? 0xc6 then bin 4
          else if x =? 0xc7 then ext 1
          else if x =? 0xc8 then ext 2
          else if x =? 0xc9 then ext 4
          else if x =? 0xca
          then nr <- read_uint 4 rest ;; UOk (VFloat (f32_to_f64 (fst nr)), snd nr)
          else if x =? 0xcb
          then nr <- read_uint 8 rest ;; UOk (VFloat (fst nr), snd nr)
          else if x =? 0xcc then uint 1
          else if x =? 0xcd then uint 2
          else if x =? 0xce then uint 4
          else if x =? 0xcf then uint 8
          else if x =? 0xd0 then sint 1
          else if x =? 0xd1 then sint 2
          else if x =? 0xd2 then sint 4
          else if x =? 0xd3 then sint 8
          else if x =? 0xd4 then read_ext 1 rest
          else if x =? 0xd5 then read_ext 2 rest
          else if x =? 0xd6 then read_ext 4 rest
          else if x =? 0xd7 then read_ext 8 rest
          else if x =? 0xd8 then read_ext 16 rest
          else if x =? 0xd9 then str 1
          else if x =? 0xda then str 2
          else if x =? 0xdb then str 4
          else if x =? 0xdc then nr <- read_uint 2 rest ;; array (fst nr) (snd nr)
          else if x =? 0xdd then nr <- read_uint 4 rest ;; array (fst nr) (snd nr)
          else if x =? 0xde then nr <- read_uint 2 rest ;; map (fst nr) (snd nr)
          else if x =? 0xdf then nr <- read_uint 4 rest ;; map (fst nr) (snd nr)
          else UOk (VInt (x - 0x100), rest)
      end
  end

with unpack_items (fuel stack : nat) (n : Z) (bs : bytes) {struct fuel}
  : uresult (list value * bytes) :=
  match fuel with
  | O => UFail Fuel
  | S fuel' =>
      if n <=? 0 then UOk ([], bs)
      else
        xr <- unpack_obj fuel' stack bs ;;
        lr <- unpack_items fuel' stack (n - 1) (snd xr) ;;
        UOk (fst xr :: fst lr, snd lr)
  end

with unpack_pairs (fuel stack : nat) (n : Z) (bs : bytes) {struct fuel}
  : uresult (list (string * value) * bytes) :=
  match fuel with
  | O => UFail Fuel
  | S fuel' =>
      if n <=? 0 then UOk ([], bs)
      else
        kr <- unpack_obj fuel' stack bs ;;
        xr <- unpack_obj fuel' stack (snd kr) ;;
        match fst kr with
        | VStr k =>
            lr <- unpack_pairs fuel' stack (n - 1) (snd xr) ;;
            UOk ((k, fst xr) :: fst lr, snd lr)
        | _ => throw ValueError
        end
  end.

Definition fuel_for (bs : bytes) : nat := 2 * List.length bs + 2.

(** [msgpack.unpackb(frame, raw=False)] *)
Definition unpackb (frame : bytes) : result value :=
  match unpack_obj (fuel_for frame) EMBED_STACK_SIZE frame with
  | UOk (v, []) => Ok v
  | UOk (_, _ :: _) => Err ExtraData
  | UFail (Thrown e) => Err e
  | UFail Fuel => Err OutOfData
  end.

End Msgpack.

(* ------------------------------------------------------------------ *)
(** ** MessageNode and AdapterNode *)

Module Node.

Local Open Scope string_scope.

Definition ADAPTER_TOPIC : string := "from_adapter/extensions".
Definition SCRATCH_TOPIC : string := "from_scratch/extensions".
Definition NOTIFICATION_TOPIC : string := "notification".
Definition EXTENSIONS_OPERATE_TOPIC : string := "adapter_core/extensions/operate".

Definition message_types : list string :=
  ["notification"; "from_scratch"; "from_adapter"; "current_extension"].

(** An object handed to the node where it expects a callback: a
    function, or some other value. *)
Inductive pyobj : Type :=
| Func (f : string)
| Data (v : value).

Definition callable (o : pyobj) : bool :=
  match o with
  | Func _ => true
  | Data _ => false
  end.

Definition obj_truthy (o : pyobj) : bool :=
  match o with
  | Func _ => true
  | Data v => truthy v
  end.

(** What the node calls: its own overridable methods (whose bodies in
    [AdapterNode] only log), and the callables it was given, which are
    taken to return normally. *)
Inductive call : Type :=
| BaseMessageHandle (topic : string) (payload : value)
| ExtensionMessageHandle (topic : string) (payload : value)
| ExitMessageHandle (topic : string) (payload : value)
| Invoke (f : string) (args : list value).

(** The instance attributes, with the two sockets and the context
    reduced to what the node does to them. *)
Record node : Type := mkNode {
  _running : bool;
  name : string;
  EXTENSION_ID : string;
  external_message_processor : pyobj;
  receive_loop_idle_addition : pyobj;
  _handlers : dict (list pyobj);
  subscribed : list bytes;        (* subscriber.setsockopt(SUBSCRIBE, _) *)
  sent : list (list bytes);       (* publisher.send_multipart(_) *)
  publisher_closed : bool;
  subscriber_closed : bool;
  context_terminated : bool;
  calls : list call               (* oldest first *)
}.

Definition set_running (b : bool) (n : node) : node :=
  mkNode b n.(name) n.(EXTENSION_ID) n.(external_message_processor)
    n.(receive_loop_idle_addition) n.(_handlers) n.(subscribed) n.(sent)
    n.(publisher_closed) n.(subscriber_closed) n.(context_terminated) n.(calls).

Definition set_handlers (h : dict (list pyobj)) (n : node) : node :=
  mkNode n.(_running) n.(name) n.(EXTENSION_ID) n.(external_message_processor)
    n.(receive_loop_idle_addition) h n.(subscribed) n.(sent)
    n.(publisher_closed) n.(subscriber_closed) n.(context_terminated) n.(calls).

Definition add_subscribed (t : bytes) (n : node) : node :=
  mkNode n.(_running) n.(name) n.(EXTENSION_ID) n.(external_message_processor)
    n.(receive_loop_idle_addition) n.(_handlers) (n.(subscribed) ++ [t])%list n.(sent)
    n.(publisher_closed) n.(subscriber_closed) n.(context_terminated) n.(calls).

Definition add_sent (frames : list bytes) (n : node) : node :=
  mkNode n.(_running) n.(name) n.(EXTENSION_ID) n.(external_message_processor)
    n.(receive_loop_idle_addition) n.(_handlers) n.(subscribed)
    (n.(sent) ++ [frames])%list
    n.(publisher_closed) n.(subscriber_closed) n.(context_terminated) n.(calls).

Definition close_all (n : node) : node :=
  mkNode n.(_running) n.(name) n.(EXTENSION_ID) n.(external_message_processor)
    n.(receive_loop_idle_addition) n.(_handlers) n.(subscribed) n.(sent)
    true true true n.(calls).

Definition add_call (c : call) (n : node) : node :=
  mkNode n.(_running) n.(name) n.(EXTENSION_ID) n.(external_message_processor)
    n.(receive_loop_idle_addition) n.(_handlers) n.(subscribed) n.(sent)
    n.(publisher_closed) n.(subscriber_closed) n.(context_terminated)
    (n.(calls) ++ [c])%list.

(** *** Methods as state transformers that may raise *)

Definition M (A : Type) : Type := node -> result A * node.

Definition ret {A} (a : A) : M A := fun n => (Ok a, n).
Definition raise {A} (e : exn) : M A := fun n => (Err e, n).
Definition bind {A B} (m : M A) (k : A -> M B) : M B :=
  fun n => match m n with
           | (Ok a, n') => k a n'
           | (Err e, n') => (Err e, n')
           end.
Definition modify (f : node -> node) : M unit := fun n => (Ok tt, f n).
Definition lift {A} (r : result A) : M A := fun n => (r, n).

Notation "x <- m ;; k" := (bind m (fun x => k))
  (at level 61, m at next level, right associativity).
Notation "m ;;; k" := (bind m (fun _ => k))
  (at level 61, right associativity).

(** A call of an object given as a callback. *)
Definition invoke (o : pyobj) (args : list value) : M unit :=
  match o with
  | Func f => modify (add_call (Invoke f args))
  | Data _ => raise TypeError
  end.

(** *** class MessageNode *)

Definition is_running (n : node) : bool := n.(_running).

Definition set_subscriber_topic (topic : value) : M unit :=
  match topic with
  | VStr t =>
      fun n => if n.(subscriber_closed) then (Err ZMQError, n)
               else (Ok tt, add_subscribed (Utf8.encode t) n)
  | _ => raise TypeError
  end.

Definition publish_payload (payload topic : value) : M unit :=
  match topic with
  | VStr t =>
      message <- lift (Msgpack.packb payload) ;;
      let pub_envelope := Utf8.encode t in
      fun n => if n.(publisher_closed) then (Err ZMQError, n)
               else (Ok tt, add_sent [pub_envelope; message] n)
  | _ => raise TypeError
  end.

(** [MessageNode.message_handle] only prints a notice. *)
Definition message_handle_base (topic : string) (payload : value) : M unit :=
  modify (add_call (BaseMessageHandle topic payload)).

Definition clean_up : M unit :=
  modify (set_running false) ;;;
  modify close_all.

(** One turn of the receive loop, as the environment decides it:
    [recv_multipart(NOBLOCK)] delivers frames, or raises
    [zmq.error.Again]; in the latter case the idle sleep completes, is
    cut short by a [KeyboardInterrupt], or overlaps with a [terminate()]
    issued from the owner's thread. *)
Inductive tick : Type :=
| Frames (data : list bytes)
| Nothing
| NothingInterrupted
| NothingTerminated.

Inductive loop_end : Type :=
| Returned               (* the [while] condition became false *)
| Raised (e : exn)       (* an exception left [receive_loop] *)
| Waiting.               (* still running, waiting for the next turn *)

Definition frame (data : list bytes) (i : nat) : result bytes :=
  match nth_error data i with
  | Some b => Ok b
  | None => Err IndexError
  end.

Definition idle : M unit :=
  fun n => if obj_truthy n.(receive_loop_idle_addition)
           then invoke n.(receive_loop_idle_addition) [] n
           else (Ok tt, n).

Section ReceiveLoop.

(** [self.message_handle], which subclasses override. *)
Variable message_handle : string -> value -> M unit.

Definition receive_one (data : list bytes) : M unit :=
  fun n =>
    if n.(subscriber_closed) then (Err ZMQError, n)
    else
      (f0 <- lift (frame data 0) ;;
       topic <- lift (Utf8.decode f0) ;;
       f1 <- lift (frame data 1) ;;
       payload <- lift (Msgpack.unpackb f1) ;;
       message_handle topic payload) n.

Fixpoint receive_loop (script : list tick) (n : node) : loop_end * node :=
  if negb n.(_running) then (Returned, n)
  else
    match script with
    | [] => (Waiting, n)
    | Frames data :: script' =>
        match receive_one data n with
        | (Ok _, n') => receive_loop script' n'
        | (Err e, n') => (Raised e, n')
        end
    | Nothing :: script' =>
        if n.(subscriber_closed) then (Raised ZMQError, n)
        else match idle n with
             | (Ok _, n') => receive_loop script' n'
             | (Err e, n') => (Raised e, n')
             end
    | NothingInterrupted :: _ =>
        if n.(subscriber_closed) then (Raised ZMQError, n)
        else match idle n with
             | (Ok _, n') => (Raised KeyboardInterrupt, snd (clean_up n'))
             | (Err e, n') => (Raised e, n')
             end
    | NothingTerminated :: script' =>
        if n.(subscriber_closed) then (Raised ZMQError, n)
        else match idle n with
             | (Ok _, n') => receive_loop script' (snd (clean_up n'))
             | (Err e, n') => (Raised e, n')
             end
    end.

End ReceiveLoop.

(** *** class AdapterNode *)

(** The attributes of a freshly constructed [AdapterNode], the
    subscriptions of [subscriber_list] apart. *)
Definition connected (name : string) (emp idle_addition : pyobj) : node :=
  mkNode true (if String.eqb name EmptyString then "AdapterNode" else name) "eim"
    emp idle_addition
    (dict_set (map (fun k => (k, @nil pyobj)) message_types) "all" [])
    [] [] false false false [].

Fixpoint subscribe_all (topics : list value) : M unit :=
  match topics with
  | [] => ret tt
  | t :: topics' => set_subscriber_topic t ;;; subscribe_all topics'
  end.

Definition default_subscriber_list : list value :=
  [VStr SCRATCH_TOPIC; VStr EXTENSIONS_OPERATE_TOPIC].

(** [AdapterNode(name, subscriber_list=..., external_message_processor=...,
    receive_loop_idle_addition=...)] *)
Definition AdapterNode (name : string) (subscriber_list : list value)
  (emp idle_addition : pyobj) : result unit * node :=
  subscribe_all subscriber_list (connected name emp idle_addition).

Definition get_extension_id (n : node) : string := n.(EXTENSION_ID).

Definition add_handler (func : pyobj) (type : string) : M unit :=
  if negb (callable func) then raise ValueError
  else fun n =>
         match dict_get n.(_handlers) type with
         | Some l => (Ok tt, set_handlers (dict_set n.(_handlers) type (l ++ [func])%list) n)
         | None => (Err KeyError, n)
         end.

Definition get_handlers (type : string) : M (list pyobj) :=
  fun n =>
    let specific := match dict_get n.(_handlers) type with
                    | Some l => l
                    | None => []
                    end in
    match dict_get n.(_handlers) "all" with
    | Some l => (Ok (specific ++ l)%list, n)
    | None => (Err KeyError, n)
    end.

Definition handler (f : pyobj) : M pyobj :=
  add_handler f "all" ;;; ret f.

(** [x.get(k)]: only a [dict] has the method. *)
Definition py_get (x : value) (k : string) : result value :=
  match x with
  | VDict d => Ok (get_or_none d k)
  | _ => Err AttributeError
  end.

Definition extension_message_handle (topic : string) (payload : value) : M unit :=
  modify (add_call (ExtensionMessageHandle topic payload)).

Definition exit_message_handle (topic : string) (payload : value) : M unit :=
  modify (add_call (ExitMessageHandle topic payload)).

(** [publish] stamps the caller's payload in place; the stamped payload
    is what is packed. *)
Definition publish (message : value) : M unit :=
  match message with
  | VDict m =>
      let topic := get_or_none m "topic" in
      let payload := get_or_none m "payload" in
      let topic := if negb (truthy topic) then VStr ADAPTER_TOPIC else topic in
      id <- lift (py_get payload "extension_id") ;;
      fun n =>
        let payload :=
          match payload with
          | VDict d =>
              if negb (truthy id)
              then VDict (dict_set d "extension_id" (VStr (get_extension_id n)))
              else payload
          | _ => payload
          end in
        publish_payload payload topic n
  | _ => raise AssertionError
  end.

Definition pub_notification (content topic type : value) : M unit :=
  fun n =>
    let payload := [("type", type); ("extension_id", VStr (get_extension_id n))] in
    let payload := dict_set payload "content" content in
    publish_payload (VDict payload) topic n.

Definition pub_status (statu : value) : M unit :=
  fun n =>
    let topic := ADAPTER_TOPIC ++ "/status" in
    let payload := [("extension_id", VStr (get_extension_id n))] in
    let payload := dict_set payload "content" statu in
    publish_payload (VDict payload) (VStr topic) n.

Definition message_handle (topic : string) (payload : value) : M unit :=
  (if String.eqb topic SCRATCH_TOPIC then
     id <- lift (py_get payload "extension_id") ;;
     fun n => if eq_str id (get_extension_id n)
              then extension_message_handle topic payload n
              else (Ok tt, n)
   else ret tt) ;;;
  (if String.eqb topic EXTENSIONS_OPERATE_TOPIC then
     id <- lift (py_get payload "extension_id") ;;
     fun n => if eq_str id (get_extension_id n)
              then exit_message_handle topic payload n
              else (Ok tt, n)
   else ret tt) ;;;
  fun n => if obj_truthy n.(external_message_processor)
           then invoke n.(external_message_processor) [VStr topic; payload] n
           else (Ok tt, n).

Definition terminate : M unit := clean_up.

(** The callables that a sequence of calls invoked, in order. *)
Fixpoint invoked (cs : list call) : list string :=
  match cs with
  | [] => []
  | Invoke f _ :: cs' => f :: invoked cs'
  | _ :: cs' => invoked cs'
  end.

(** *** What the specification expects of [message_handle] and [publish] *)

Definition set_external_message_processor (o : pyobj) (n : node) : node :=
  mkNode n.(_running) n.(name) n.(EXTENSION_ID) o
    n.(receive_loop_idle_addition) n.(_handlers) n.(subscribed) n.(sent)
    n.(publisher_closed) n.(subscriber_closed) n.(context_terminated) n.(calls).

Definition processor (emp : option string) : pyobj :=
  match emp with
  | Some f => Func f
  | None => Data VNone
  end.

(** Section 4.5: the extension handler on the authoring-tool topic and the
    exit handler on the lifecycle topic, each only for this node's
    identity; then the external processor, if there is one. *)
Definition routed (identity : string) (emp : option string)
  (topic : string) (d : dict value) : list call :=
  let mine := eq_str (get_or_none d "extension_id") identity in
  ((if String.eqb topic SCRATCH_TOPIC && mine
    then [ExtensionMessageHandle topic (VDict d)] else []) ++
   (if String.eqb topic EXTENSIONS_OPERATE_TOPIC && mine
    then [ExitMessageHandle topic (VDict d)] else []) ++
   match emp with
   | Some f => [Invoke f [VStr topic; VDict d]]
   | None => []
   end)%list.

Definition add_calls (cs : list call) (n : node) : node :=
  mkNode n.(_running) n.(name) n.(EXTENSION_ID) n.(external_message_processor)
    n.(receive_loop_idle_addition) n.(_handlers) n.(subscribed) n.(sent)
    n.(publisher_closed) n.(subscriber_closed) n.(context_terminated)
    (n.(calls) ++ cs)%list.

(** Section 4.4: the topic of the message, or the node-wide outbound
    topic; the payload, with the identity of the node when it has none. *)
Definition outbound_topic (topic : option string) : string :=
  match topic with
  | Some t => if String.eqb t EmptyString then ADAPTER_TOPIC else t
  | None => ADAPTER_TOPIC
  end.

Definition stamped (identity : string) (d : dict value) : dict value :=
  if truthy (get_or_none d "extension_id") then d
  else dict_set d "extension_id" (VStr identity).

End Node.

(* ------------------------------------------------------------------ *)
(** ** Scenarios *)

Module Scenario.

Import Node.
Local Open Scope string_scope.

(** A payload four levels deep with every supported kind of value. *)
Definition nested_payload : dict value :=
  [("extension_id", VStr "eim");
   ("count", VInt 300);
   ("items",
    VList [VInt (-5); VStr "hi"; VBool true; VNone;
           VDict [("ratio", VFloat 4602678819172646912);
                  ("big", VInt 18446744073709551615);
                  ("deep", VList [VInt (-9223372036854775808); VList []])]])].

(** A node without callbacks, and one with an external processor. *)
Definition plain : node := connected "" (Data VNone) (Data VNone).
Definition observed : node := connected "" (Func "processor") (Data VNone).

(** [h1] then [h2] under ["from_scratch"], [h3] under ["all"]. *)
Definition register (f1 f2 f3 : string) : M unit :=
  add_handler (Func f1) "from_scratch" ;;;
  add_handler (Func f2) "from_scratch" ;;;
  add_handler (Func f3) "all".

Definition registered (f1 f2 f3 : string) : node := snd (register f1 f2 f3 plain).

Definition hello (identity : string) : dict value :=
  [("extension_id", VStr identity); ("content", VStr "hello")].

Definition frame_of (d : dict value) : bytes :=
  match Msgpack.packb (VDict d) with
  | Ok b => b
  | Err _ => []
  end.

(** A frame that is no MessagePack object: the reserved byte 0xc1. *)
Definition corrupt_frame : bytes := [byte_of 0xc1].

Definition corrupt_then_good : list tick :=
  [Frames [Utf8.encode SCRATCH_TOPIC; corrupt_frame];
   Frames [Utf8.encode SCRATCH_TOPIC; frame_of (hello "eim")]].

End Scenario.

(* ------------------------------------------------------------------ *)
(** ** TokenBucket *)

Module Bucket.

Local Open Scope Q_scope.

(** The numbers of the bucket are Python floats; they are taken here as
    exact rationals, so rounding is left out ([Bucket64] has the floats
    themselves).  [time.time()] is an input:
    every operation receives the reading [now] that it would obtain. *)
Record TokenBucket : Type := mkBucket {
  capacity : Q;
  _tokens : Q;
  fill_rate : Q;
  timestamp : Q
}.

(** [TokenBucket(tokens, fill_rate)] *)
Definition init (tokens fill_rate now : Q) : TokenBucket :=
  mkBucket tokens tokens fill_rate now.

Definition Qlt_bool (a b : Q) : bool := negb (Qle_bool b a).

(** [min(a, b)]: the first argument unless the second is smaller. *)
Definition min (a b : Q) : Q := if Qlt_bool b a then b else a.

Definition get_tokens (now : Q) (b : TokenBucket) : Q * TokenBucket :=
  if Qlt_bool b.(_tokens) b.(capacity) then
    let delta := b.(fill_rate) * (now - b.(timestamp)) in
    let b' := mkBucket b.(capacity) (min b.(capacity) (b.(_tokens) + delta))
                b.(fill_rate) now in
    (b'.(_tokens), b')
  else (b.(_tokens), b).

Definition consume (tokens now : Q) (b : TokenBucket) : bool * TokenBucket :=
  let (current, b1) := get_tokens now b in
  if Qle_bool tokens current
  then (true, mkBucket b1.(capacity) (b1.(_tokens) - tokens) b1.(fill_rate)
                b1.(timestamp))
  else (false, b1).

(** Sequences of operations, each with the clock reading at its time. *)
Inductive op : Type :=
| Consume (n : Q)
| Read.

Definition step (o : op) (now : Q) (b : TokenBucket) : TokenBucket :=
  match o with
  | Consume n => snd (consume n now b)
  | Read => snd (get_tokens now b)
  end.

Fixpoint run (ops : list (op * Q)) (b : TokenBucket) : TokenBucket :=
  match ops with
  | [] => b
  | (o, now) :: ops' => run ops' (step o now b)
  end.

Definition in_range (b : TokenBucket) : Prop :=
  0 <= b.(_tokens) /\ b.(_tokens) <= b.(capacity).

End Bucket.

(* ------------------------------------------------------------------ *)
(** ** TokenBucket over binary64 floats *)

Module Bucket64.

(** Python's [float] is IEEE 754 binary64: 53 bits of precision, exponents
    up to 1024, infinities and NaN, rounding to nearest with ties to even. *)
Definition prec : Z := 53.
Definition emax : Z := 1024.
Definition float : Type := spec_float.

(** The float nearest to [m * 2^e]. *)
Definition dyadic (m e : Z) : float := binary_normalize prec emax m e false.

(** [float(z)] *)
Definition of_Z (z : Z) : float := dyadic z 0.

Definition add : float -> float -> float := SFadd prec emax.
Definition sub : float -> float -> float := SFsub prec emax.
Definition mul : float -> float -> float := SFmul prec emax.
(** [a < b] and [a <= b]; both are false when an operand is NaN. *)
Definition lt : float -> float -> bool := SFltb.
Definition le : float -> float -> bool := SFleb.

Record TokenBucket : Type := mkBucket {
  capacity : float;
  _tokens : float;
  fill_rate : float;
  timestamp : float
}.

(** [TokenBucket(tokens, fill_rate)], built when [time.time()] reads [now]. *)
Definition init (tokens fill_rate now : float) : TokenBucket :=
  mkBucket tokens tokens fill_rate now.

(** [min(a, b)]: the first argument unless the second is smaller. *)
Definition min (a b : float) : float := if lt b a then b else a.

Definition get_tokens (now : float) (b : TokenBucket) : float * TokenBucket :=
  if lt b.(_tokens) b.(capacity) then
    let delta := mul b.(fill_rate) (sub now b.(timestamp)) in
    let b' := mkBucket b.(capacity) (min b.(capacity) (add b.(_tokens) delta))
                b.(fill_rate) now in
    (b'.(_tokens), b')
  else (b.(_tokens), b).

Definition consume (tokens now : float) (b : TokenBucket) : bool * TokenBucket :=
  let (current, b1) := get_tokens now b in
  if le tokens current
  then (true, mkBucket b1.(capacity) (sub b1.(_tokens) tokens) b1.(fill_rate)
                b1.(timestamp))
  else (false, b1).

End Bucket64.

(* ------------------------------------------------------------------ *)
(** ** Helpers of [utils.py] *)

Module Utils.

Local Open Scope string_scope.

(** A call returns, or stops on a local variable that no branch has
    assigned. *)
Inductive outcome (A : Type) : Type :=
| Returns (a : A)
| UnboundLocalError.
Arguments Returns {A} a.
Arguments UnboundLocalError {A}.

(** [get_python3_path()].  The setting [PYTHON3_PATH] comes from the
    settings module and [system] is what [platform.system()] returns. *)
Definition get_python3_path (PYTHON3_PATH : value) (system : string)
  : outcome value :=
  if truthy PYTHON3_PATH then Returns PYTHON3_PATH
  else
    let path : option string := None in
    let path := if String.eqb system "Darwin"
                then Some "/usr/local/bin/python3" else path in
    let path := if String.eqb system "Windows" then Some "python" else path in
    let path := if String.eqb system "Linux" then Some "/usr/bin/python3" else path in
    match path with
    | Some p => Returns (VStr p)
    | None => UnboundLocalError
    end.

(** [open_path_in_system_file_manager(path)]: the argument vector handed to
    [subprocess.Popen], which is also what the function returns. *)
Definition open_path_in_system_file_manager (path system : string)
  : outcome (list string) :=
  let cmd : option string := None in
  let cmd := if String.eqb system "Darwin" then Some "open" else cmd in
  let cmd := if String.eqb system "Linux" then Some "xdg-open" else cmd in
  let cmd := if String.eqb system "Windows" then Some "explorer" else cmd in
  match cmd with
  | Some c => Returns [c; path]
  | None => UnboundLocalError
  end.

End Utils.

(* ------------------------------------------------------------------ *)
(** ** Sequences of calls *)

Module Runs.

Import Node.

(** Calls of [add_handler] one after the other, the caller going on after
    a call that raised. *)
Definition add_handlers (calls : list (pyobj * string)) (n : node) : node :=
  fold_left (fun n c => snd (add_handler (fst c) (snd c) n)) calls n.

(** The wire form of a message: the topic frame and the payload frame. *)
Definition frames_of (m : string * dict value) : list bytes :=
  [Utf8.encode (fst m); Scenario.frame_of (snd m)].

(** A message that the topic decoder and the codec accept. *)
Definition deliverable (m : string * dict value) : Prop :=
  Utf8.valid (Utf8.encode (fst m)) = true
  /\ Msgpack.supported (VDict (snd m)) = true
  /\ Msgpack.height (VDict (snd m)) <= Msgpack.DEFAULT_RECURSE_LIMIT + 1.

(** The subscriber after [setsockopt(SUBSCRIBE, _)] for each topic. *)
Definition subscribe_to (topics : list string) (n : node) : node :=
  fold_left (fun n t => add_subscribed (Utf8.encode t) n) topics n.

(** The two outcomes of a publishing method: one message of two frames
    sent, or an exception and the node as it was. *)
Definition one_send_or_nothing (r : result unit * node) (n : node) : Prop :=
  match r with
  | (Ok _, n') => exists t frame, n' = add_sent [t; frame] n
  | (Err _, n') => n' = n
  end.

Definition is_mapping (v : value) : bool :=
  match v with
  | VDict _ => true
  | _ => false
  end.

End Runs.

(* ------------------------------------------------------------------ *)
(** ** The codec: decoding inverts encoding *)

Module CodecFacts.
Import Msgpack.

(** *** Bytes and big-endian integers *)

Lemma byte_val_range (b : ascii) : 0 <= byte_val b < 256.
Proof.
  unfold byte_val. pose proof (N_ascii_bounded b). lia.
Qed.

Lemma byte_val_of (z : Z) : 0 <= z < 256 -> byte_val (byte_of z) = z.
Proof.
  intros H. unfold byte_val, byte_of.
  rewrite N_ascii_embedding by lia. lia.
Qed.

Lemma length_be_bytes (k : nat) (n : Z) : List.length (be_bytes k n) = k.
Proof. induction k; simpl; congruence. Qed.

Lemma be_fold (k : nat) : forall n acc,
  0 <= n ->
  fold_left (fun a b => a * 256 + byte_val b) (be_bytes k n) acc
  = acc * 256 ^ Z.of_nat k + n mod 256 ^ Z.of_nat k.
Proof.
  induction k as [|k IH]; intros n acc Hn.
  - simpl. rewrite Z.mod_1_r. lia.
  - cbn [be_bytes fold_left]. rewrite IH by assumption.
    rewrite byte_val_of by (apply Z.mod_pos_bound; lia).
    rewrite Nat2Z.inj_succ, Z.pow_succ_r by lia.
    assert (Hp : 0 < 256 ^ Z.of_nat k) by (apply Z.pow_pos_nonneg; lia).
    rewrite (Z.mul_comm 256 (256 ^ Z.of_nat k)).
    rewrite (Z.rem_mul_r n (256 ^ Z.of_nat k) 256) by lia.
    lia.
Qed.

Lemma be_val_be_bytes (k : nat) (n : Z) :
  0 <= n < 256 ^ Z.of_nat k -> be_val (be_bytes k n) = n.
Proof.
  intros H. unfold be_val. rewrite be_fold by lia.
  rewrite Z.mod_small by lia. lia.
Qed.

Lemma take_app (a r : bytes) : take (len a) (a ++ r) = UOk (a, r).
Proof.
  unfold take, len. rewrite length_app.
  destruct (Z.ltb_spec (Z.of_nat (List.length a + List.length r)) (Z.of_nat (List.length a))); [lia|].
  rewrite Nat2Z.id, firstn_app, skipn_app, Nat.sub_diag, firstn_all, skipn_all.
  simpl. now rewrite app_nil_r.
Qed.

Lemma take_be (k : nat) (n : Z) (r : bytes) :
  take (Z.of_nat k) (be_bytes k n ++ r) = UOk (be_bytes k n, r).
Proof.
  rewrite <- (length_be_bytes k n) at 1. apply take_app.
Qed.

Lemma read_uint_be (k : nat) (n : Z) (r : bytes) :
  0 <= n < 256 ^ Z.of_nat k ->
  read_uint (Z.of_nat k) (be_bytes k n ++ r) = UOk (n, r).
Proof.
  intros H. unfold read_uint. rewrite take_be. cbn [ubind fst snd].
  now rewrite be_val_be_bytes.
Qed.

Lemma read_int_be_pos (k : nat) (n : Z) (r : bytes) :
  (0 < k)%nat ->
  0 <= n < 2 ^ (8 * Z.of_nat k - 1) ->
  read_int (Z.of_nat k) (be_bytes k n ++ r) = UOk (n, r).
Proof.
  intros Hk H. unfold read_int. rewrite take_be. cbn [ubind fst snd].
  assert (E : 256 ^ Z.of_nat k = 2 ^ (8 * Z.of_nat k)).
  { change 256 with (2 ^ 8). rewrite <- Z.pow_mul_r by lia. reflexivity. }
  assert (2 ^ (8 * Z.of_nat k) = 2 * 2 ^ (8 * Z.of_nat k - 1)).
  { rewrite <- Z.pow_succ_r by lia. f_equal. lia. }
  rewrite be_val_be_bytes by lia.
  destruct (Z.ltb_spec n (2 ^ (8 * Z.of_nat k - 1))); [reflexivity | lia].
Qed.

Lemma read_int_be_neg (k : nat) (n : Z) (r : bytes) :
  (0 < k)%nat ->
  - 2 ^ (8 * Z.of_nat k - 1) <= n < 0 ->
  read_int (Z.of_nat k) (be_bytes k (n + 2 ^ (8 * Z.of_nat k)) ++ r) = UOk (n, r).
Proof.
  intros Hk H. unfold read_int. rewrite take_be. cbn [ubind fst snd].
  assert (E : 256 ^ Z.of_nat k = 2 ^ (8 * Z.of_nat k)).
  { change 256 with (2 ^ 8). rewrite <- Z.pow_mul_r by lia. reflexivity. }
  assert (2 ^ (8 * Z.of_nat k) = 2 * 2 ^ (8 * Z.of_nat k - 1)).
  { rewrite <- Z.pow_succ_r by lia. f_equal. lia. }
  rewrite be_val_be_bytes by lia.
  destruct (Z.ltb_spec (n + 2 ^ (8 * Z.of_nat k)) (2 ^ (8 * Z.of_nat k - 1))); [lia|].
  f_equal. f_equal. lia.
Qed.

(** *** Scalars *)

#[local] Arguments be_bytes : simpl never.

Lemma Ok_inj {A} (a b : A) : Ok a = Ok b -> a = b.
Proof. congruence. Qed.

Ltac decide_cond :=
  match goal with
  | |- (if ?a <=? ?b then _ else _) = _ =>
      first [ rewrite (proj2 (Z.leb_le a b)) by lia
            | rewrite (proj2 (Z.leb_gt a b)) by lia ]
  | |- (if ?a =? ?b then _ else _) = _ =>
      first [ rewrite (proj2 (Z.eqb_eq a b)) by lia
            | rewrite (proj2 (Z.eqb_neq a b)) by lia ]
  end.

(** Reads the head byte of the input and follows the dispatch. *)
Ltac head_byte :=
  cbn [app unpack_obj]; rewrite byte_val_of by lia; repeat decide_cond.

Lemma read_uint_1 n r : 0 <= n < 2 ^ 8 -> read_uint 1 (be_bytes 1 n ++ r) = UOk (n, r).
Proof. intros H. apply (read_uint_be 1). exact H. Qed.
Lemma read_uint_2 n r : 0 <= n < 2 ^ 16 -> read_uint 2 (be_bytes 2 n ++ r) = UOk (n, r).
Proof. intros H. apply (read_uint_be 2). exact H. Qed.
Lemma read_uint_4 n r : 0 <= n < 2 ^ 32 -> read_uint 4 (be_bytes 4 n ++ r) = UOk (n, r).
Proof. intros H. apply (read_uint_be 4). exact H. Qed.
Lemma read_uint_8 n r : 0 <= n < 2 ^ 64 -> read_uint 8 (be_bytes 8 n ++ r) = UOk (n, r).
Proof. intros H. apply (read_uint_be 8). exact H. Qed.

Lemma read_int_1 n r : - 2 ^ 7 <= n < 0 -> read_int 1 (be_bytes 1 (n + 2 ^ 8) ++ r) = UOk (n, r).
Proof. intros H. apply (read_int_be_neg 1); [lia | exact H]. Qed.
Lemma read_int_2 n r : - 2 ^ 15 <= n < 0 -> read_int 2 (be_bytes 2 (n + 2 ^ 16) ++ r) = UOk (n, r).
Proof. intros H. apply (read_int_be_neg 2); [lia | exact H]. Qed.
Lemma read_int_4 n r : - 2 ^ 31 <= n < 0 -> read_int 4 (be_bytes 4 (n + 2 ^ 32) ++ r) = UOk (n, r).
Proof. intros H. apply (read_int_be_neg 4); [lia | exact H]. Qed.
Lemma read_int_8 n r : - 2 ^ 63 <= n < 0 -> read_int 8 (be_bytes 8 (n + 2 ^ 64) ++ r) = UOk (n, r).
Proof. intros H. apply (read_int_be_neg 8); [lia | exact H]. Qed.

Ltac split_cond H :=
  match type of H with
  | (if ?c then _ else _) = _ =>
      let E := fresh "E" in destruct c eqn:E
  end.

Lemma unpack_int n bs f st r :
  pack_int n = Ok bs -> unpack_obj (S f) st (bs ++ r) = UOk (VInt n, r).
Proof.
  unfold pack_int. intros H.
  repeat (split_cond H;
          [ apply Ok_inj in H; subst;
            repeat match goal with
              | E : _ && _ = true |- _ => apply andb_prop in E; destruct E
              end
          | ]); try discriminate.
  all: repeat match goal with
         | E : (_ <=? _) = true |- _ => apply Z.leb_le in E
         | E : (_ <? _) = true |- _ => apply Z.ltb_lt in E
         end.
  - head_byte. reflexivity.
  - head_byte. replace (n + 256 - 256) with n by lia. reflexivity.
  - head_byte. rewrite read_uint_1 by lia. reflexivity.
  - head_byte. rewrite read_int_1 by lia. reflexivity.
  - head_byte. rewrite read_uint_2 by lia. reflexivity.
  - head_byte. rewrite read_int_2 by lia. reflexivity.
  - head_byte. rewrite read_uint_4 by lia. reflexivity.
  - head_byte. rewrite read_int_4 by lia. reflexivity.
  - head_byte. rewrite read_uint_8 by lia. reflexivity.
  - head_byte. rewrite read_int_8 by lia. reflexivity.
Qed.

Lemma len_nonneg {A} (l : list A) : 0 <= len l.
Proof. unfold len. lia. Qed.

Lemma unpack_float bits f st r :
  0 <= bits < 2 ^ 64 ->
  unpack_obj (S f) st ((byte_of 0xcb :: be_bytes 8 bits) ++ r) = UOk (VFloat bits, r).
Proof.
  intros H. rewrite <- app_comm_cons. head_byte.
  rewrite read_uint_8 by lia. reflexivity.
Qed.

Lemma unpack_bool (b : bool) f st r :
  unpack_obj (S f) st (byte_of (if b then 0xc3 else 0xc2) :: r) = UOk (VBool b, r).
Proof. destruct b; head_byte; reflexivity. Qed.

Lemma read_str_app s r :
  Utf8.valid (Utf8.encode s) = true ->
  read_str (len (Utf8.encode s)) (Utf8.encode s ++ r) = UOk (VStr s, r).
Proof.
  intros H. unfold read_str. rewrite take_app. cbn [ubind fst snd].
  unfold Utf8.decode. rewrite H. unfold Utf8.encode.
  now rewrite string_of_list_ascii_of_string.
Qed.

Lemma read_bin_app b r : read_bin (len b) (b ++ r) = UOk (VBytes b, r).
Proof. unfold read_bin. now rewrite take_app. Qed.

Ltac header_cases H :=
  repeat (split_cond H; [ apply Ok_inj in H; subst | ]); try discriminate;
  repeat match goal with
    | E : (_ <=? _) = true |- _ => apply Z.leb_le in E
    | E : (_ <=? _) = false |- _ => apply Z.leb_gt in E
    | E : (_ =? _) = true |- _ => apply Z.eqb_eq in E
    | E : (_ =? _) = false |- _ => apply Z.eqb_neq in E
    end.

Lemma unpack_str s bs f st r :
  Utf8.valid (Utf8.encode s) = true ->
  pack_str s = Ok bs ->
  unpack_obj (S f) st (bs ++ r) = UOk (VStr s, r).
Proof.
  intros Hv. unfold pack_str.
  pose proof (len_nonneg (Utf8.encode s)) as Hl.
  destruct (str_header (len (Utf8.encode s))) as [h|e] eqn:Hh; cbn [rbind]; [|discriminate].
  intros [= <-]. rewrite <- app_assoc.
  unfold str_header in Hh. header_cases Hh.
  - head_byte. replace (160 + len (Utf8.encode s) - 160) with (len (Utf8.encode s)) by lia.
    now apply read_str_app.
  - head_byte. rewrite read_uint_1 by lia. cbn [ubind fst snd]. now apply read_str_app.
  - head_byte. rewrite read_uint_2 by lia. cbn [ubind fst snd]. now apply read_str_app.
  - head_byte. rewrite read_uint_4 by lia. cbn [ubind fst snd]. now apply read_str_app.
Qed.

Lemma unpack_bin b h f st r :
  bin_header (len b) = Ok h ->
  unpack_obj (S f) st ((h ++ b) ++ r) = UOk (VBytes b, r).
Proof.
  intros Hh. pose proof (len_nonneg b) as Hl. rewrite <- app_assoc.
  unfold bin_header in Hh. header_cases Hh.
  - head_byte. rewrite read_uint_1 by lia. cbn [ubind fst snd]. apply read_bin_app.
  - head_byte. rewrite read_uint_2 by lia. cbn [ubind fst snd]. apply read_bin_app.
  - head_byte. rewrite read_uint_4 by lia. cbn [ubind fst snd]. apply read_bin_app.
Qed.

Lemma take_1 (b : ascii) (r : bytes) : take 1 (b :: r) = UOk ([b], r).
Proof.
  unfold take, len. cbn [List.length].
  destruct (Z.ltb_spec (Z.of_nat (S (List.length r))) 1); [lia | reflexivity].
Qed.

Lemma read_ext_app code data r :
  0 <= code <= 127 ->
  read_ext (len data) (byte_of code :: data ++ r) = UOk (VExt code data, r).
Proof.
  intros H. unfold read_ext, read_int. rewrite take_1. cbn [ubind fst snd].
  unfold be_val. cbn [fold_left]. rewrite byte_val_of by lia.
  change (2 ^ (8 * 1 - 1)) with 128.
  destruct (Z.ltb_spec (0 * 256 + code) 128); [|lia].
  rewrite take_app. cbn [ubind fst snd].
  destruct (Z.leb_spec 0 (0 * 256 + code)); [|lia].
  replace (0 * 256 + code) with code by lia. reflexivity.
Qed.

Lemma unpack_ext code data h f st r :
  0 <= code <= 127 ->
  ext_header (len data) code = Ok h ->
  unpack_obj (S f) st ((h ++ data) ++ r) = UOk (VExt code data, r).
Proof.
  intros Hc Hh. pose proof (len_nonneg data) as Hl. rewrite <- app_assoc.
  unfold ext_header in Hh. header_cases Hh.
  - head_byte. rewrite <- E. now apply read_ext_app.
  - head_byte. rewrite <- E0. now apply read_ext_app.
  - head_byte. rewrite <- E1. now apply read_ext_app.
  - head_byte. rewrite <- E2. now apply read_ext_app.
  - head_byte. rewrite <- E3. now apply read_ext_app.
  - cbn [app]. rewrite <- app_assoc. head_byte. rewrite read_uint_1 by lia. cbn [ubind fst snd].
    now apply read_ext_app.
  - cbn [app]. rewrite <- app_assoc. head_byte. rewrite read_uint_2 by lia. cbn [ubind fst snd].
    now apply read_ext_app.
  - cbn [app]. rewrite <- app_assoc. head_byte. rewrite read_uint_4 by lia. cbn [ubind fst snd].
    now apply read_ext_app.
Qed.

(** *** The shape of what the packer writes *)

Lemma pack_list_eq l nest :
  pack (VList l) nest =
  if nest <? 0 then Err ValueError
  else rbind (array_header (len l)) (fun h =>
       rbind (pack_items nest l) (fun body => Ok (h ++ body))).
Proof. reflexivity. Qed.

Lemma pack_dict_eq d nest :
  pack (VDict d) nest =
  if nest <? 0 then Err ValueError
  else rbind (map_header (len d)) (fun h =>
       rbind (pack_pairs nest d) (fun body => Ok (h ++ body))).
Proof. reflexivity. Qed.

Lemma rbind_ok {A B} (r : result A) (k : A -> result B) (b : B) :
  rbind r k = Ok b -> exists a, r = Ok a /\ k a = Ok b.
Proof. destruct r; cbn; [eauto | discriminate]. Qed.

Lemma header_nonempty n h :
  str_header n = Ok h \/ bin_header n = Ok h \/ array_header n = Ok h \/ map_header n = Ok h ->
  (1 <= List.length h)%nat.
Proof.
  unfold str_header, bin_header, array_header, map_header.
  intros [H|[H|[H|H]]];
    repeat (split_cond H; [apply Ok_inj in H; subst; cbn [List.length]; lia|]);
    discriminate.
Qed.

Lemma pack_nonempty v nest bs : pack v nest = Ok bs -> (1 <= List.length bs)%nat.
Proof.
  destruct v; [| | | | | | rewrite pack_list_eq | rewrite pack_dict_eq | ]; cbn [pack];
    (destruct (nest <? 0); [discriminate|]); intros H.
  - apply Ok_inj in H; subst; cbn; lia.
  - apply Ok_inj in H; subst; cbn; lia.
  - unfold pack_int in H.
    repeat (split_cond H; [apply Ok_inj in H; subst; cbn [List.length]; lia|]).
    discriminate.
  - apply Ok_inj in H; subst; cbn [List.length]; lia.
  - unfold pack_str in H. apply rbind_ok in H as (h & Hh & H).
    apply Ok_inj in H; subst. rewrite length_app.
    pose proof (header_nonempty _ _ (or_introl Hh)). lia.
  - apply rbind_ok in H as (h & Hh & H).
    apply Ok_inj in H; subst. rewrite length_app.
    pose proof (header_nonempty _ _ (or_intror (or_introl Hh))). lia.
  - apply rbind_ok in H as (h & Hh & H). apply rbind_ok in H as (body & Hb & H).
    apply Ok_inj in H; subst. rewrite length_app.
    pose proof (header_nonempty _ _ (or_intror (or_intror (or_introl Hh)))). lia.
  - apply rbind_ok in H as (h & Hh & H). apply rbind_ok in H as (body & Hb & H).
    apply Ok_inj in H; subst. rewrite length_app.
    pose proof (header_nonempty _ _ (or_intror (or_intror (or_intror Hh)))). lia.
  - destruct ((0 <=? code) && (code <=? 127)); [|discriminate].
    apply rbind_ok in H as (h & Hh & H). apply Ok_inj in H; subst.
    rewrite length_app. unfold ext_header in Hh.
    repeat (split_cond Hh; [apply Ok_inj in Hh; subst; cbn [List.length]; lia|]).
    discriminate.
Qed.

(** *** Dictionaries with distinct keys *)

Lemma mem_string_app k l1 l2 :
  mem_string k (l1 ++ l2) = mem_string k l1 || mem_string k l2.
Proof.
  induction l1 as [|a l1 IH]; cbn; [reflexivity|].
  rewrite IH. now rewrite orb_assoc.
Qed.

Lemma dict_set_fresh {A} (d : dict A) k v :
  mem_string k (dict_keys d) = false -> dict_set d k v = d ++ [(k, v)].
Proof.
  induction d as [|[k' v'] d IH]; cbn; [reflexivity|].
  intros H. apply orb_false_elim in H as [H1 H2].
  rewrite H1. now rewrite IH.
Qed.

Lemma nodup_keys_app_cons l1 k l2 :
  nodup_keys (l1 ++ k :: l2) = true ->
  mem_string k l1 = false /\ nodup_keys ((l1 ++ [k]) ++ l2) = true.
Proof.
  rewrite <- app_assoc. cbn [app]. intros H. split; [|exact H].
  induction l1 as [|a l1 IH]; cbn in *; [reflexivity|].
  apply andb_prop in H as [H1 H2].
  rewrite mem_string_app in H1. cbn in H1.
  apply negb_true_iff in H1.
  apply orb_false_elim in H1 as [_ H1]. apply orb_false_elim in H1 as [H1 _].
  rewrite (IH H2), orb_false_r.
  rewrite String.eqb_sym. exact H1.
Qed.

Lemma build_dict_from (l acc : list (string * value)) :
  nodup_keys (dict_keys (acc ++ l)) = true ->
  fold_left (fun d kv => dict_set d (fst kv) (snd kv)) l acc = acc ++ l.
Proof.
  revert acc. induction l as [|[k v] l IH]; intros acc H; cbn [fold_left fst snd].
  - now rewrite app_nil_r.
  - unfold dict_keys in H. rewrite map_app in H. cbn [map fst] in H.
    apply nodup_keys_app_cons in H as [Hk H].
    rewrite dict_set_fresh by exact Hk.
    rewrite IH.
    + now rewrite <- app_assoc.
    + unfold dict_keys. rewrite !map_app. exact H.
Qed.

Lemma build_dict_nodup (d : list (string * value)) :
  nodup_keys (dict_keys d) = true -> build_dict d = d.
Proof. intros H. unfold build_dict. now rewrite build_dict_from. Qed.

(** *** Containers, and the round trip *)

Lemma unpack_array_header n h f st r :
  0 <= n ->
  array_header n = Ok h ->
  unpack_obj (S f) st (h ++ r) =
  if n =? 0 then UOk (VList [], r)
  else match st with
       | O => throw StackError
       | S st' => ubind (unpack_items f st' n r) (fun lr => UOk (VList (fst lr), snd lr))
       end.
Proof.
  intros Hn Hh. unfold array_header in Hh. header_cases Hh.
  - head_byte. replace (144 + n - 144) with n by lia. reflexivity.
  - head_byte. rewrite read_uint_2 by lia. reflexivity.
  - head_byte. rewrite read_uint_4 by lia. reflexivity.
Qed.

Lemma unpack_map_header n h f st r :
  0 <= n ->
  map_header n = Ok h ->
  unpack_obj (S f) st (h ++ r) =
  if n =? 0 then UOk (VDict [], r)
  else match st with
       | O => throw StackError
       | S st' =>
           ubind (unpack_pairs f st' n r)
                 (fun lr => UOk (VDict (build_dict (fst lr)), snd lr))
       end.
Proof.
  intros Hn Hh. unfold map_header in Hh. header_cases Hh.
  - head_byte. replace (128 + n - 128) with n by lia. reflexivity.
  - head_byte. rewrite read_uint_2 by lia. reflexivity.
  - head_byte. rewrite read_uint_4 by lia. reflexivity.
Qed.

(** What the round trip says of one object. *)
Definition roundtrips (v : value) : Prop :=
  forall nest bs fuel stack r,
    supported v = true ->
    pack v nest = Ok bs ->
    (2 * List.length bs <= fuel)%nat ->
    nest <= Z.of_nat stack ->
    unpack_obj fuel stack (bs ++ r) = UOk (v, r).

Lemma unpack_items_pack (l : list value) :
  Forall roundtrips l ->
  forall nest body fuel stack r,
    forallb supported l = true ->
    pack_items nest l = Ok body ->
    (2 * List.length body + 1 <= fuel)%nat ->
    nest - 1 <= Z.of_nat stack ->
    unpack_items fuel stack (len l) (body ++ r) = UOk (l, r).
Proof.
  induction 1 as [|x l Hx _ IH]; intros nest body fuel stack r Hwf Hp Hf Hs.
  - cbn in Hp. apply Ok_inj in Hp; subst body.
    destruct fuel as [|f]; [cbn in Hf; lia|]. reflexivity.
  - cbn [pack_items] in Hp.
    apply rbind_ok in Hp as (bx & Hbx & Hp). apply rbind_ok in Hp as (br & Hbr & Hp).
    apply Ok_inj in Hp; subst body.
    cbn [forallb] in Hwf. apply andb_prop in Hwf as [Hwx Hwl].
    pose proof (pack_nonempty _ _ _ Hbx) as Hne.
    rewrite length_app in Hf.
    destruct fuel as [|f]; [lia|].
    cbn [unpack_items].
    assert (Hlen : len (x :: l) = len l + 1) by (unfold len; cbn [List.length]; lia).
    pose proof (len_nonneg l).
    destruct (Z.leb_spec (len (x :: l)) 0); [lia|].
    rewrite <- app_assoc.
    rewrite (Hx (nest - 1) bx f stack (br ++ r)) by (assumption || lia).
    cbn [ubind fst snd].
    replace (len (x :: l) - 1) with (len l) by lia.
    rewrite (IH nest br f stack r) by (assumption || lia).
    reflexivity.
Qed.

Lemma unpack_pairs_pack (d : list (string * value)) :
  Forall (fun kv => roundtrips (snd kv)) d ->
  forall nest body fuel stack r,
    forallb (fun kv => text_ok (fst kv) && supported (snd kv)) d = true ->
    pack_pairs nest d = Ok body ->
    (2 * List.length body + 1 <= fuel)%nat ->
    nest - 1 <= Z.of_nat stack ->
    unpack_pairs fuel stack (len d) (body ++ r) = UOk (d, r).
Proof.
  induction 1 as [|[k x] d Hx _ IH]; intros nest body fuel stack r Hwf Hp Hf Hs.
  - cbn in Hp. apply Ok_inj in Hp; subst body.
    destruct fuel as [|f]; [cbn in Hf; lia|]. reflexivity.
  - cbn [pack_pairs] in Hp.
    apply rbind_ok in Hp as (bk & Hbk & Hp). apply rbind_ok in Hp as (bx & Hbx & Hp).
    apply rbind_ok in Hp as (br & Hbr & Hp).
    apply Ok_inj in Hp; subst body.
    destruct (nest - 1 <? 0); [discriminate|].
    cbn [forallb fst snd] in Hwf, Hx.
    apply andb_prop in Hwf as [Hwx Hwl]. apply andb_prop in Hwx as [Hwk Hwx].
    unfold text_ok in Hwk. apply andb_prop in Hwk as [Hwk _].
    pose proof (pack_nonempty _ _ _ Hbx) as Hne.
    assert (Hnk : (1 <= List.length bk)%nat).
    { unfold pack_str in Hbk. apply rbind_ok in Hbk as (h & Hh & Hbk).
      apply Ok_inj in Hbk; subst. rewrite length_app.
      pose proof (header_nonempty _ _ (or_introl Hh)). lia. }
    rewrite !length_app in Hf.
    destruct fuel as [|f]; [lia|].
    cbn [unpack_pairs].
    assert (Hlen : len ((k, x) :: d) = len d + 1) by (unfold len; cbn [List.length]; lia).
    pose proof (len_nonneg d).
    destruct (Z.leb_spec (len ((k, x) :: d)) 0); [lia|].
    rewrite <- !app_assoc.
    destruct f as [|f']; [lia|].
    rewrite (unpack_str k bk f' stack _ Hwk Hbk).
    cbn [ubind fst snd].
    rewrite (Hx (nest - 1) bx (S f') stack (br ++ r)) by (assumption || lia).
    cbn [ubind fst snd].
    replace (len ((k, x) :: d) - 1) with (len d) by lia.
    rewrite (IH nest br (S f') stack r) by (assumption || lia).
    reflexivity.
Qed.

Lemma unpack_pack (v : value) : roundtrips v.
Proof.
  induction v as [| b | n | bits | s | b | l IH | d IH | c b] using value_ind;
    intros nest bs fuel stack r Hwf Hp Hf Hs.
  - cbn [pack] in Hp. destruct (nest <? 0); [discriminate|]. apply Ok_inj in Hp; subst.
    destruct fuel; [cbn in Hf; lia|]. head_byte. reflexivity.
  - cbn [pack] in Hp. destruct (nest <? 0); [discriminate|]. apply Ok_inj in Hp; subst.
    destruct fuel; [cbn in Hf; lia|]. apply unpack_bool.
  - cbn [pack] in Hp. destruct (nest <? 0); [discriminate|].
    pose proof (pack_nonempty (VInt n) 0 bs Hp).
    destruct fuel; [lia|]. now apply unpack_int.
  - cbn [pack] in Hp. destruct (nest <? 0); [discriminate|]. apply Ok_inj in Hp; subst.
    destruct fuel; [cbn in Hf; lia|].
    cbn [supported] in Hwf. apply andb_prop in Hwf as [H1 H2].
    apply Z.leb_le in H1. apply Z.ltb_lt in H2. now apply unpack_float.
  - cbn [pack] in Hp. destruct (nest <? 0); [discriminate|].
    pose proof (pack_nonempty (VStr s) 0 bs Hp).
    cbn [supported] in Hwf. unfold text_ok in Hwf. apply andb_prop in Hwf as [Hwf _].
    destruct fuel; [lia|]. now apply unpack_str.
  - pose proof (pack_nonempty _ _ _ Hp).
    cbn [pack] in Hp. destruct (nest <? 0); [discriminate|].
    apply rbind_ok in Hp as (h & Hh & Hp). apply Ok_inj in Hp; subst.
    destruct fuel; [lia|]. now apply unpack_bin.
  - rewrite pack_list_eq in Hp. destruct (Z.ltb_spec nest 0); [discriminate|].
    apply rbind_ok in Hp as (h & Hh & Hp). apply rbind_ok in Hp as (body & Hb & Hp).
    apply Ok_inj in Hp; subst.
    pose proof (header_nonempty _ _ (or_intror (or_intror (or_introl Hh)))) as Hne.
    rewrite length_app in Hf.
    destruct fuel as [|f]; [lia|].
    rewrite <- app_assoc.
    rewrite (unpack_array_header (len l) h f stack _ (len_nonneg l) Hh).
    destruct l as [|x l].
    + cbn in Hb. apply Ok_inj in Hb; subst. reflexivity.
    + assert (len (x :: l) <> 0) by (unfold len; cbn [List.length]; lia).
      destruct (Z.eqb_spec (len (x :: l)) 0); [contradiction|].
      destruct stack as [|st].
      * exfalso. cbn [pack_items] in Hb. apply rbind_ok in Hb as (bx & Hbx & _).
        assert (nest - 1 < 0) by lia.
        destruct x; cbn [pack] in Hbx;
          destruct (Z.ltb_spec (nest - 1) 0); try discriminate; lia.
      * cbn [supported] in Hwf. apply andb_prop in Hwf as [_ Hwf].
        rewrite (unpack_items_pack _ IH nest body f st r) by (assumption || lia).
        reflexivity.
  - rewrite pack_dict_eq in Hp. destruct (Z.ltb_spec nest 0); [discriminate|].
    apply rbind_ok in Hp as (h & Hh & Hp). apply rbind_ok in Hp as (body & Hb & Hp).
    apply Ok_inj in Hp; subst.
    pose proof (header_nonempty _ _ (or_intror (or_intror (or_intror Hh)))) as Hne.
    rewrite length_app in Hf.
    destruct fuel as [|f]; [lia|].
    rewrite <- app_assoc.
    rewrite (unpack_map_header (len d) h f stack _ (len_nonneg d) Hh).
    cbn [supported] in Hwf. apply andb_prop in Hwf as [Hnd Hwf].
    apply andb_prop in Hnd as [_ Hnd].
    destruct d as [|[k x] d].
    + cbn in Hb. apply Ok_inj in Hb; subst. reflexivity.
    + assert (len ((k, x) :: d) <> 0) by (unfold len; cbn [List.length]; lia).
      destruct (Z.eqb_spec (len ((k, x) :: d)) 0); [contradiction|].
      destruct stack as [|st].
      * exfalso. cbn [pack_pairs] in Hb. apply rbind_ok in Hb as (bk & Hbk & _).
        destruct (Z.ltb_spec (nest - 1) 0); [discriminate | lia].
      * rewrite (unpack_pairs_pack _ IH nest body f st r) by (assumption || lia).
        cbn [ubind fst snd]. now rewrite build_dict_nodup.
  - discriminate.
Qed.

Lemma unpackb_packb (v : value) (bs : bytes) :
  supported v = true -> packb v = Ok bs -> unpackb bs = Ok v.
Proof.
  intros Hwf Hp. unfold unpackb.
  rewrite <- (app_nil_r bs) at 2.
  rewrite (unpack_pack v DEFAULT_RECURSE_LIMIT bs (fuel_for bs) EMBED_STACK_SIZE []);
    try assumption.
  - reflexivity.
  - unfold fuel_for. lia.
  - unfold DEFAULT_RECURSE_LIMIT, EMBED_STACK_SIZE. lia.
Qed.

(** *** The packer accepts every supported payload *)

Ltac bool_hyps :=
  repeat match goal with
    | E : _ && _ = true |- _ => apply andb_prop in E; destruct E
    | E : _ && _ = false |- _ => apply andb_false_iff in E
    | E : (_ <=? _) = true |- _ => apply Z.leb_le in E
    | E : (_ <=? _) = false |- _ => apply Z.leb_gt in E
    | E : (_ <? _) = true |- _ => apply Z.ltb_lt in E
    | E : (_ <? _) = false |- _ => apply Z.ltb_ge in E
    | E : (_ =? _) = true |- _ => apply Z.eqb_eq in E
    | E : (_ =? _) = false |- _ => apply Z.eqb_neq in E
    end.

Ltac first_branch :=
  match goal with
  | |- exists _, (if ?c then _ else _) = _ =>
      let E := fresh "E" in destruct c eqn:E; [eexists; reflexivity|]
  end.

Lemma pack_int_total n :
  - 2 ^ 63 <= n < 2 ^ 64 -> exists bs, pack_int n = Ok bs.
Proof.
  intros H. unfold pack_int. repeat first_branch. exfalso. bool_hyps. lia.
Qed.

Lemma str_header_total n : n < 2 ^ 32 -> exists h, str_header n = Ok h.
Proof. intros H. unfold str_header. repeat first_branch. exfalso. bool_hyps. lia. Qed.

Lemma bin_header_total n : n < 2 ^ 32 -> exists h, bin_header n = Ok h.
Proof. intros H. unfold bin_header. repeat first_branch. exfalso. bool_hyps. lia. Qed.

Lemma array_header_total n : n < 2 ^ 32 -> exists h, array_header n = Ok h.
Proof. intros H. unfold array_header. repeat first_branch. exfalso. bool_hyps. lia. Qed.

Lemma map_header_total n : n < 2 ^ 32 -> exists h, map_header n = Ok h.
Proof. intros H. unfold map_header. repeat first_branch. exfalso. bool_hyps. lia. Qed.

Lemma pack_str_total s : text_ok s = true -> exists bs, pack_str s = Ok bs.
Proof.
  unfold text_ok. intros H. bool_hyps. unfold pack_str.
  destruct (str_header_total _ H0) as [h ->]. cbn [rbind]. eauto.
Qed.

Lemma fold_max_nonneg {A} (f : A -> Z) (l : list A) :
  0 <= fold_right (fun x h => Z.max (f x) h) 0 l.
Proof. induction l; cbn [fold_right]; lia. Qed.

Lemma height_pos (v : value) : 1 <= height v.
Proof.
  destruct v; cbn [height]; try lia.
  - pose proof (fold_max_nonneg height l). lia.
  - pose proof (fold_max_nonneg (fun kv => height (snd kv)) d). lia.
Qed.

Definition packable (v : value) : Prop :=
  forall nest, supported v = true -> height v <= nest + 1 ->
               exists bs, pack v nest = Ok bs.

Lemma pack_items_total (l : list value) :
  Forall packable l ->
  forall nest, forallb supported l = true ->
               fold_right (fun x h => Z.max (height x) h) 0 l <= nest ->
               exists body, pack_items nest l = Ok body.
Proof.
  induction 1 as [|x l Hx _ IH]; intros nest Hs Hh; cbn [pack_items].
  - eauto.
  - cbn [forallb fold_right] in Hs, Hh. bool_hyps.
    destruct (Hx (nest - 1)) as [bx ->]; [assumption | lia |].
    destruct (IH nest) as [br ->]; [assumption | lia |].
    cbn [rbind]. eauto.
Qed.

Lemma pack_pairs_total (d : list (string * value)) :
  Forall (fun kv => packable (snd kv)) d ->
  forall nest, forallb (fun kv => text_ok (fst kv) && supported (snd kv)) d = true ->
               fold_right (fun kv h => Z.max (height (snd kv)) h) 0 d <= nest ->
               exists body, pack_pairs nest d = Ok body.
Proof.
  induction 1 as [|[k x] d Hx _ IH]; intros nest Hs Hh; cbn [pack_pairs].
  - eauto.
  - cbn [forallb fold_right fst snd] in Hs, Hh, Hx. bool_hyps.
    pose proof (height_pos x) as Hpos.
    destruct (Z.ltb_spec (nest - 1) 0); [lia|].
    destruct (pack_str_total k) as [bk ->]; [assumption|].
    destruct (Hx (nest - 1)) as [bx ->]; [assumption | lia |].
    destruct (IH nest) as [br ->]; [assumption | lia |].
    cbn [rbind]. eauto.
Qed.

Lemma pack_total (v : value) : packable v.
Proof.
  induction v as [| b | n | bits | s | b | l IH | d IH | c b] using value_ind;
    intros nest Hs Hh;
    [ | | | | | | rewrite pack_list_eq | rewrite pack_dict_eq | ];
    cbn [pack supported height] in *;
    try discriminate;
    (destruct (Z.ltb_spec nest 0);
     [ try lia | ]).
  - eauto.
  - eauto.
  - bool_hyps. apply pack_int_total. lia.
  - eauto.
  - now apply pack_str_total.
  - bool_hyps. destruct (bin_header_total _ Hs) as [h ->]. cbn [rbind]. eauto.
  - pose proof (fold_max_nonneg height l). lia.
  - bool_hyps. destruct (array_header_total _ H0) as [h ->]. cbn [rbind].
    destruct (pack_items_total l IH nest) as [body ->]; [assumption | lia |].
    cbn [rbind]. eauto.
  - pose proof (fold_max_nonneg (fun kv => height (snd kv)) d). lia.
  - bool_hyps. destruct (map_header_total _ H0) as [h ->]. cbn [rbind].
    destruct (pack_pairs_total d IH nest) as [body ->]; [assumption | lia |].
    cbn [rbind]. eauto.
Qed.

End CodecFacts.

(* ------------------------------------------------------------------ *)
(** ** The unpacker has fuel enough *)

Module FuelFacts.
Import Msgpack CodecFacts.

(** The result of a reader that was given enough fuel: it raised, or it
    left at most [k] bytes. *)
Definition within {A} (k : nat) (res : uresult (A * bytes)) : Prop :=
  match res with
  | UOk (_, r) => (List.length r <= k)%nat
  | UFail Fuel => False
  | UFail (Thrown _) => True
  end.

Lemma within_mono {A} (k k' : nat) (res : uresult (A * bytes)) :
  (k <= k')%nat -> within k res -> within k' res.
Proof. destruct res as [[a r]|[|e]]; cbn; auto. lia. Qed.

Lemma within_bind_to {A B} (k k' : nat) (c : uresult (A * bytes))
  (g : A * bytes -> uresult (B * bytes)) :
  within k c ->
  (forall a r, (List.length r <= k)%nat -> within k' (g (a, r))) ->
  within k' (ubind c g).
Proof. destruct c as [[a r]|[|e]]; cbn; auto. Qed.

Lemma within_bind {A B} (k : nat) (c : uresult (A * bytes))
  (g : A * bytes -> uresult (B * bytes)) :
  within k c ->
  (forall a r, (List.length r <= k)%nat -> within k (g (a, r))) ->
  within k (ubind c g).
Proof. apply within_bind_to. Qed.

Lemma within_take (k : nat) (n : Z) (bs : bytes) :
  (List.length bs <= k)%nat -> within k (take n bs).
Proof.
  intros H. unfold take. destruct (len bs <? n); cbn; [exact I|].
  rewrite length_skipn. lia.
Qed.

Lemma within_read_uint k n bs :
  (List.length bs <= k)%nat -> within k (read_uint n bs).
Proof.
  intros H. unfold read_uint. apply within_bind; [now apply within_take|].
  intros a r Hr. exact Hr.
Qed.

Lemma within_read_int k n bs :
  (List.length bs <= k)%nat -> within k (read_int n bs).
Proof.
  intros H. unfold read_int. apply within_bind; [now apply within_take|].
  intros a r Hr. exact Hr.
Qed.

Lemma within_read_str k n bs :
  (List.length bs <= k)%nat -> within k (read_str n bs).
Proof.
  intros H. unfold read_str. apply within_bind; [now apply within_take|].
  intros a r Hr. cbn [fst snd]. destruct (Utf8.decode a); [exact Hr | exact I].
Qed.

Lemma within_read_bin k n bs :
  (List.length bs <= k)%nat -> within k (read_bin n bs).
Proof.
  intros H. unfold read_bin. apply within_bind; [now apply within_take|].
  intros a r Hr. exact Hr.
Qed.

Lemma within_read_ext k n bs :
  (List.length bs <= k)%nat -> within k (read_ext n bs).
Proof.
  intros H. unfold read_ext. apply within_bind; [now apply within_read_int|].
  intros c r Hr. cbn [fst snd]. apply within_bind; [now apply within_take|].
  intros d r' Hr'. cbn [fst snd]. destruct (0 <=? c); [exact Hr' | exact I].
Qed.

Definition enough (fuel : nat) : Prop :=
  (forall st bs, (2 * List.length bs + 1 <= fuel)%nat ->
                 within (List.length bs - 1) (unpack_obj fuel st bs)
                 /\ (bs = [] -> unpack_obj fuel st bs = throw OutOfData))
  /\ (forall st n bs, (2 * List.length bs + 2 <= fuel)%nat ->
                      within (List.length bs) (unpack_items fuel st n bs))
  /\ (forall st n bs, (2 * List.length bs + 2 <= fuel)%nat ->
                      within (List.length bs) (unpack_pairs fuel st n bs)).

Ltac within_leaf :=
  lazymatch goal with
  | |- within _ (UOk _) => cbn [within]; lia
  | |- within _ (throw _) => exact I
  | |- within _ (read_str _ _) => apply within_read_str; cbn [fst snd]; lia
  | |- within _ (read_bin _ _) => apply within_read_bin; cbn [fst snd]; lia
  | |- within _ (read_ext _ _) => apply within_read_ext; cbn [fst snd]; lia
  end.

Lemma enough_fuel : forall fuel, enough fuel.
Proof.
  induction fuel as [|f (IHo & IHi & IHp)]; unfold enough.
  - repeat split; intros; lia.
  - split; [|split].
    + intros st bs Hf. destruct bs as [|b rest]; [split; [exact I | reflexivity]|].
      split; [|discriminate].
      cbn [List.length] in *. replace (S (List.length rest) - 1)%nat
        with (List.length rest) by lia.
      assert (Hitems : forall st' n r, (List.length r <= List.length rest)%nat ->
                within (List.length rest) (unpack_items f st' n r)).
      { intros st' n r Hr. apply (within_mono (List.length r)); [exact Hr|].
        apply IHi. lia. }
      assert (Hpairs : forall st' n r, (List.length r <= List.length rest)%nat ->
                within (List.length rest) (unpack_pairs f st' n r)).
      { intros st' n r Hr. apply (within_mono (List.length r)); [exact Hr|].
        apply IHp. lia. }
      cbn [unpack_obj].
      repeat match goal with
             | |- within _ (if ?c then _ else _) => destruct c
             end;
        repeat first
          [ within_leaf
          | apply within_bind;
            [ first [ apply within_read_uint; lia
                    | apply within_read_int; lia
                    | apply Hitems; cbn [fst snd]; lia
                    | apply Hpairs; cbn [fst snd]; lia ]
            | intros ? ? ?; cbn [fst snd] ]
          | match goal with
            | |- within _ (if ?c then _ else _) => destruct c
            | |- within _ (match ?s with O => _ | S _ => _ end) => destruct s
            end ].
    + intros st n bs Hf. cbn [unpack_items].
      destruct (n <=? 0); [cbn; lia|].
      destruct (IHo st bs ltac:(lia)) as [Ho Hnil].
      destruct bs as [|b rest]; [rewrite (Hnil eq_refl); exact I|].
      cbn [List.length] in *.
      apply (within_bind_to (S (List.length rest) - 1)); [exact Ho|].
      intros x r Hr. cbn [fst snd].
      apply (within_bind_to (List.length r)).
      * apply IHi. lia.
      * intros l r2 Hr2. cbn [within fst snd]. lia.
    + intros st n bs Hf. cbn [unpack_pairs].
      destruct (n <=? 0); [cbn; lia|].
      destruct (IHo st bs ltac:(lia)) as [Ho Hnil].
      destruct bs as [|b rest]; [rewrite (Hnil eq_refl); exact I|].
      cbn [List.length] in *.
      apply (within_bind_to (S (List.length rest) - 1)); [exact Ho|].
      intros k r Hr. cbn [fst snd].
      apply (within_bind_to (List.length r)).
      * apply (within_mono (List.length r - 1)); [lia|]. apply IHo. lia.
      * intros x r2 Hr2. cbn [fst snd].
        destruct k; try exact I.
        apply (within_bind_to (List.length r2)).
        -- apply IHp. lia.
        -- intros l r3 Hr3. cbn [within fst snd]. lia.
Qed.

(** [unpackb] never runs out of fuel: its last case is dead code. *)
Lemma unpackb_enough_fuel (frame : bytes) :
  unpack_obj (fuel_for frame) EMBED_STACK_SIZE frame <> UFail Fuel.
Proof.
  destruct (enough_fuel (fuel_for frame)) as (Ho & _ & _).
  destruct (Ho EMBED_STACK_SIZE frame) as [H _]; [unfold fuel_for; lia|].
  intros E. rewrite E in H. exact H.
Qed.

End FuelFacts.

(* ------------------------------------------------------------------ *)
(** ** The envelope codec, as the node uses it *)

(** C3. For every payload that is a mapping from string keys to supported
    values (integers, floats, strings, booleans, nulls, nested mappings and
    sequences), nested as far as the packer goes, encoding succeeds and
    decoding the bytes it produced yields the original payload. *)
Theorem payload_round_trip (d : dict value) :
  Msgpack.supported (VDict d) = true ->
  Msgpack.height (VDict d) <= Msgpack.DEFAULT_RECURSE_LIMIT + 1 ->
  exists frame,
    Msgpack.packb (VDict d) = Ok frame /\ Msgpack.unpackb frame = Ok (VDict d).
Proof.
  intros Hs Hh.
  destruct (CodecFacts.pack_total (VDict d) Msgpack.DEFAULT_RECURSE_LIMIT Hs Hh)
    as [frame Hp].
  exists frame. split; [exact Hp|].
  now apply CodecFacts.unpackb_packb.
Qed.

(** The round trip on [Scenario.nested_payload]. *)
Lemma payload_round_trip_nested :
  3 <= Msgpack.height (VDict Scenario.nested_payload) /\
  exists frame,
    Msgpack.packb (VDict Scenario.nested_payload) = Ok frame /\
    Msgpack.unpackb frame = Ok (VDict Scenario.nested_payload).
Proof.
  split; [vm_compute; discriminate|].
  apply (payload_round_trip Scenario.nested_payload);
    [vm_compute; reflexivity | vm_compute; discriminate].
Defined.

(* ------------------------------------------------------------------ *)
(** ** The node *)

Module NodeFacts.
Import Node.
Local Open Scope string_scope.

Lemma eq_str_iff (v : value) (s : string) : eq_str v s = true <-> v = VStr s.
Proof.
  destruct v; cbn; try (split; [discriminate | intros [=]]).
  rewrite String.eqb_eq. split; [now intros -> | now intros [= ->]].
Qed.

Lemma dict_get_none {A} (d : dict A) (k : string) :
  mem_string k (dict_keys d) = false -> dict_get d k = None.
Proof.
  induction d as [|[k' v] d IH]; cbn; [reflexivity|].
  intros H. apply orb_false_elim in H as [H1 H2]. rewrite H1. auto.
Qed.

Lemma dict_get_some {A} (d : dict A) (k : string) :
  mem_string k (dict_keys d) = true -> exists v, dict_get d k = Some v.
Proof.
  induction d as [|[k' v] d IH]; cbn; [discriminate|].
  destruct (String.eqb k' k); cbn; eauto.
Qed.

Lemma dict_set_keys {A} (d : dict A) (k : string) (v : A) :
  mem_string k (dict_keys d) = true -> dict_keys (dict_set d k v) = dict_keys d.
Proof.
  unfold dict_keys. induction d as [|[k' v'] d IH]; cbn; [discriminate|].
  destruct (String.eqb k' k); cbn; [reflexivity|].
  intros H. now rewrite IH.
Qed.

Lemma mem_string_get {A} (d : dict A) (k : string) (v : A) :
  dict_get d k = Some v -> mem_string k (dict_keys d) = true.
Proof.
  induction d as [|[k' v'] d IH]; cbn; [discriminate|].
  destruct (String.eqb k' k); cbn; auto.
Qed.

(** The key set of the registry is fixed at construction. *)
Definition registry_keys : list string := (message_types ++ ["all"])%list.

Lemma connected_keys nm emp hook :
  dict_keys (connected nm emp hook).(_handlers) = registry_keys.
Proof. reflexivity. Qed.

Lemma add_handler_keys (func : pyobj) (k : string) (n : node) :
  dict_keys (snd (add_handler func k n)).(_handlers) = dict_keys n.(_handlers).
Proof.
  unfold add_handler. destruct (callable func); cbn; [|reflexivity].
  destruct (dict_get (_handlers n) k) eqn:E; cbn; [|reflexivity].
  apply dict_set_keys. eapply mem_string_get; eauto.
Qed.

Lemma receive_loop_stopped handle script n :
  _running n = false -> receive_loop handle script n = (Returned, n).
Proof. intros H. destruct script; cbn; now rewrite H. Qed.

(** A script in two parts: the second part runs from where the first left
    the loop waiting. *)
Lemma receive_loop_app handle (pre rest : list tick) : forall n,
  receive_loop handle (pre ++ rest) n
  = match receive_loop handle pre n with
    | (Waiting, n1) => receive_loop handle rest n1
    | r => r
    end.
Proof.
  induction pre as [|t pre IH]; intros n.
  - cbn [app receive_loop]. destruct (_running n) eqn:E; cbn [negb].
    + reflexivity.
    + now apply receive_loop_stopped.
  - cbn [app receive_loop]. destruct (negb (_running n)); [reflexivity|].
    destruct t.
    + destruct (receive_one handle data n) as [[u|e] n']; [apply IH | reflexivity].
    + destruct (subscriber_closed n); [reflexivity|].
      destruct (idle n) as [[u|e] n']; [apply IH | reflexivity].
    + destruct (subscriber_closed n); [reflexivity|].
      destruct (idle n) as [[u|e] n']; reflexivity.
    + destruct (subscriber_closed n); [reflexivity|].
      destruct (idle n) as [[u|e] n']; [apply IH | reflexivity].
Qed.

Lemma receive_loop_waiting handle script n n1 :
  receive_loop handle script n = (Waiting, n1) -> _running n1 = true.
Proof.
  revert n. induction script as [|t script IH]; intros n; cbn [receive_loop];
    destruct (_running n) eqn:E; cbn [negb]; try discriminate.
  - now intros [= <-].
  - destruct t.
    + destruct (receive_one handle data n) as [[u|e] n']; [apply IH | discriminate].
    + destruct (subscriber_closed n); [discriminate|].
      destruct (idle n) as [[u|e] n']; [apply IH | discriminate].
    + destruct (subscriber_closed n); [discriminate|].
      destruct (idle n) as [[u|e] n']; discriminate.
    + destruct (subscriber_closed n); [discriminate|].
      destruct (idle n) as [[u|e] n']; [apply IH | discriminate].
Qed.

(** An exception raised while a message is decoded leaves the loop
    whatever follows in the script: the [try] of [receive_loop] handles
    [zmq.error.Again] only. *)
Lemma decode_error_leaves_loop handle (data : list bytes) (script : list tick)
  (n : node) (f0 f1 : bytes) (topic : string) (e : exn) :
  _running n = true ->
  subscriber_closed n = false ->
  nth_error data 0 = Some f0 ->
  Utf8.decode f0 = Ok topic ->
  nth_error data 1 = Some f1 ->
  Msgpack.unpackb f1 = Err e ->
  receive_loop handle (Frames data :: script) n = (Raised e, n).
Proof.
  intros Hrun Hsub H0 Ht H1 He.
  cbn [receive_loop]. rewrite Hrun. cbn [negb].
  unfold receive_one, bind, lift, frame. rewrite Hsub, H0, Ht, H1, He.
  reflexivity.
Qed.

(** What [publish_payload] sends is what [receive_loop] hands to
    [message_handle] at the other end. *)
Lemma sent_frames_are_handled handle (d : dict value) (t : string)
  (sender sender' receiver : node) :
  Msgpack.supported (VDict d) = true ->
  Utf8.valid (Utf8.encode t) = true ->
  subscriber_closed receiver = false ->
  publish_payload (VDict d) (VStr t) sender = (Ok tt, sender') ->
  exists frames,
    sent sender' = (sent sender ++ [frames])%list
    /\ receive_one handle frames receiver = handle t (VDict d) receiver.
Proof.
  intros Hs Ht Hopen. unfold publish_payload, bind, lift.
  destruct (Msgpack.packb (VDict d)) as [message|e] eqn:Hp; [|discriminate].
  destruct (publisher_closed sender); [discriminate|].
  intros [= <-]. eexists. split; [reflexivity|].
  unfold receive_one, bind, lift, frame. rewrite Hopen. cbn [nth_error].
  unfold Utf8.decode. rewrite Ht. unfold Utf8.encode.
  rewrite string_of_list_ascii_of_string.
  now rewrite (CodecFacts.unpackb_packb _ _ Hs Hp).
Qed.

Lemma idle_ok (n : node) :
  implb (obj_truthy n.(receive_loop_idle_addition))
        (callable n.(receive_loop_idle_addition)) = true ->
  exists cs, idle n = (Ok tt, add_calls cs n).
Proof.
  unfold idle. destruct n as [run nm id p hook h sub snt pc sc ct cs]. cbn.
  destruct hook as [f|v]; cbn.
  - intros _. exists [Invoke f []]. reflexivity.
  - destruct (truthy v); [discriminate|]. intros _. exists [].
    unfold add_calls. cbn. now rewrite app_nil_r.
Qed.

End NodeFacts.

Section NodeClaims.

Import Node.
Local Open Scope string_scope.

(** C1 (as the code behaves). With the reserved byte 0xc1 as payload frame,
    [unpackb] raises inside the [try] of [receive_loop], whose only handler
    is for [zmq.error.Again]: the exception leaves the loop, and the
    well-formed message queued behind it is never handled, although the
    same message alone is handled. *)
Theorem corrupt_frame_ends_receive_loop :
  receive_loop message_handle Scenario.corrupt_then_good Scenario.observed
  = (Raised FormatError, Scenario.observed)
  /\ receive_loop message_handle (tl Scenario.corrupt_then_good) Scenario.observed
     = (Waiting,
        add_calls [ExtensionMessageHandle SCRATCH_TOPIC (VDict (Scenario.hello "eim"));
                   Invoke "processor"
                     [VStr SCRATCH_TOPIC; VDict (Scenario.hello "eim")]]
          Scenario.observed).
Proof. split; vm_compute; reflexivity. Qed.

(** C2 (the claim as stated fails). After registering [h1], [h2] under
    ["from_scratch"] and [h3] under ["all"], dispatching a message of the
    authoring-tool topic invokes none of them. *)
Lemma dispatch_ignores_registry :
  invoked (calls (snd (message_handle SCRATCH_TOPIC (VDict (Scenario.hello "eim"))
                         (Scenario.registered "h1" "h2" "h3"))))
  <> ["h1"; "h2"; "h3"].
Proof. vm_compute. discriminate. Qed.

(** C2 (amended). For a node on which [h1] then [h2] were registered under
    ["from_scratch"] and [h3] under ["all"], [get_handlers("from_scratch")]
    returns exactly [h1], [h2], [h3] in that order and [get_handlers] of any
    other class key than ["all"] returns only [h3]; [message_handle] itself
    invokes no registered handler. *)
Theorem get_handlers_order (f1 f2 f3 k topic : string) (payload : value) :
  k <> "from_scratch" ->
  k <> "all" ->
  let n := Scenario.registered f1 f2 f3 in
  fst (Scenario.register f1 f2 f3 Scenario.plain) = Ok tt
  /\ get_handlers "from_scratch" n = (Ok [Func f1; Func f2; Func f3], n)
  /\ get_handlers k n = (Ok [Func f3], n)
  /\ invoked (calls (snd (message_handle topic payload n))) = [].
Proof.
  intros H1 H2 n. split; [reflexivity|]. split; [reflexivity|]. split.
  - assert (Hh : _handlers n =
                  [("notification", []); ("from_scratch", [Func f1; Func f2]);
                   ("from_adapter", []); ("current_extension", []);
                   ("all", [Func f3])]) by reflexivity.
    unfold get_handlers. rewrite Hh. cbn [dict_get].
    repeat match goal with
           | |- context [String.eqb ?a k] =>
               destruct (String.eqb_spec a k); [subst k|]
           end; try reflexivity; congruence.
  - unfold message_handle, bind, lift, ret, py_get, n.
    destruct (String.eqb topic SCRATCH_TOPIC);
      destruct (String.eqb topic EXTENSIONS_OPERATE_TOPIC);
      destruct payload; cbn;
      repeat match goal with
             | |- context [if ?c then _ else _] => destruct c; cbn
             end; reflexivity.
Qed.

(** The registry of the scenario, read under ["notification"]. *)
Lemma get_handlers_order_notification :
  let n := Scenario.registered "h1" "h2" "h3" in
  fst (Scenario.register "h1" "h2" "h3" Scenario.plain) = Ok tt
  /\ get_handlers "from_scratch" n = (Ok [Func "h1"; Func "h2"; Func "h3"], n)
  /\ get_handlers "notification" n = (Ok [Func "h3"], n)
  /\ invoked (calls (snd (message_handle SCRATCH_TOPIC
                            (VDict (Scenario.hello "eim")) n))) = [].
Proof.
  apply (get_handlers_order "h1" "h2" "h3" "notification" SCRATCH_TOPIC
           (VDict (Scenario.hello "eim"))); discriminate.
Defined.

(** C4. For an AdapterNode and a mapping payload: the extension-message
    handler is called exactly when the topic is the authoring-tool topic and
    the payload's identity field equals the node's identity (["eim"]); the
    exit handler exactly when the topic is the lifecycle-operate topic under
    the same filter; and the external processor, when one was supplied, is
    called with every message. *)
Theorem adapter_routing (n : node) (emp : option string) (topic : string)
  (d : dict value) :
  let n0 := set_external_message_processor (processor emp) n in
  let cs := routed n.(EXTENSION_ID) emp topic d in
  message_handle topic (VDict d) n0 = (Ok tt, add_calls cs n0)
  /\ (In (ExtensionMessageHandle topic (VDict d)) cs <->
      topic = SCRATCH_TOPIC /\ get_or_none d "extension_id" = VStr n.(EXTENSION_ID))
  /\ (In (ExitMessageHandle topic (VDict d)) cs <->
      topic = EXTENSIONS_OPERATE_TOPIC /\
      get_or_none d "extension_id" = VStr n.(EXTENSION_ID))
  /\ match emp with
     | Some p => In (Invoke p [VStr topic; VDict d]) cs
     | None => True
     end.
Proof.
  intros n0 cs. split; [|split; [|split]].
  - subst n0 cs. destruct n as [run nm id p idl h sub snt pc sc ct cs].
    unfold message_handle, routed, bind, lift, ret, py_get, get_extension_id,
      extension_message_handle, exit_message_handle, modify, add_calls, add_call,
      set_external_message_processor, processor, invoke, obj_truthy.
    cbn.
    destruct (eq_str (get_or_none d "extension_id") id) eqn:E;
      destruct (String.eqb topic SCRATCH_TOPIC);
      destruct (String.eqb topic EXTENSIONS_OPERATE_TOPIC);
      destruct emp; cbn; rewrite ?E; cbn; rewrite ?E; cbn;
      unfold modify, add_call; cbn;
      rewrite ?app_nil_r, <- ?app_assoc; reflexivity.
  - subst cs. unfold routed. rewrite <- NodeFacts.eq_str_iff, <- String.eqb_eq.
    destruct (String.eqb topic SCRATCH_TOPIC);
      destruct (eq_str (get_or_none d "extension_id") (EXTENSION_ID n));
      destruct (String.eqb topic EXTENSIONS_OPERATE_TOPIC);
      destruct emp; cbn; intuition congruence.
  - subst cs. unfold routed. rewrite <- NodeFacts.eq_str_iff, <- String.eqb_eq.
    destruct (String.eqb topic SCRATCH_TOPIC);
      destruct (eq_str (get_or_none d "extension_id") (EXTENSION_ID n));
      destruct (String.eqb topic EXTENSIONS_OPERATE_TOPIC);
      destruct emp; cbn; intuition congruence.
  - subst cs. unfold routed. destruct emp; [|exact I].
    apply in_or_app. right. apply in_or_app. right. now left.
Qed.

(** C5. For every topic that is not a string, [set_subscriber_topic] and
    [publish_payload] raise [TypeError] and leave the node as it was: no
    subscription is registered and nothing is sent. *)
Theorem non_string_topic_rejected (topic payload : value) (n : node) :
  is_str topic = false ->
  set_subscriber_topic topic n = (Err TypeError, n)
  /\ publish_payload payload topic n = (Err TypeError, n).
Proof.
  intros H. destruct topic; try discriminate; split; reflexivity.
Qed.

(** An integer as topic. *)
Lemma non_string_topic_rejected_int :
  set_subscriber_topic (VInt 5) Scenario.plain = (Err TypeError, Scenario.plain)
  /\ publish_payload (VDict (Scenario.hello "eim")) (VInt 5) Scenario.plain
     = (Err TypeError, Scenario.plain).
Proof.
  apply (non_string_topic_rejected (VInt 5) (VDict (Scenario.hello "eim"))
           Scenario.plain).
  reflexivity.
Defined.

(** C6. For a message whose payload is a supported mapping and whose topic
    is absent or a string, on a node whose publisher is open: [publish]
    packs the payload, stamped with the node's identity when it has none,
    and performs exactly one wire send, on the topic of the message or on
    [ADAPTER_TOPIC] when the message has none; a message without payload is
    refused with an error and nothing is sent. *)
Theorem publish_sends_once (n : node) (m d : dict value) (topic : option string) :
  publisher_closed n = false ->
  dict_get m "topic" = option_map VStr topic ->
  dict_get m "payload" = Some (VDict d) ->
  Msgpack.supported (VDict (stamped n.(EXTENSION_ID) d)) = true ->
  Msgpack.height (VDict (stamped n.(EXTENSION_ID) d))
  <= Msgpack.DEFAULT_RECURSE_LIMIT + 1 ->
  (exists frame,
      Msgpack.packb (VDict (stamped n.(EXTENSION_ID) d)) = Ok frame
      /\ publish (VDict m) n
         = (Ok tt, add_sent [Utf8.encode (outbound_topic topic); frame] n))
  /\ (topic = None -> outbound_topic topic = ADAPTER_TOPIC)
  /\ (dict_get d "extension_id" = None ->
      stamped n.(EXTENSION_ID) d
      = (d ++ [("extension_id", VStr n.(EXTENSION_ID))])%list)
  /\ (forall m', dict_get m' "payload" = None ->
                 publish (VDict m') n = (Err AttributeError, n)).
Proof.
  intros Hopen Ht Hp Hs Hh. split; [|split; [|split]].
  - destruct (CodecFacts.pack_total _ _ Hs Hh) as [frame Hf].
    exists frame. split; [exact Hf|].
    unfold publish, get_or_none, bind, lift, py_get, get_extension_id.
    rewrite Ht, Hp.
    replace (get_or_none d "extension_id")
      with (match dict_get d "extension_id" with Some v => v | None => VNone end)
      by reflexivity.
    assert (Hst : (if negb (truthy match dict_get d "extension_id" with
                                     | Some v => v
                                     | None => VNone
                                     end)
                   then VDict (dict_set d "extension_id" (VStr (EXTENSION_ID n)))
                   else VDict d) = VDict (stamped (EXTENSION_ID n) d)).
    { unfold stamped, get_or_none.
      destruct (truthy match dict_get d "extension_id" with
                       | Some v => v
                       | None => VNone
                       end); reflexivity. }
    rewrite Hst.
    assert (Htopic : (if negb (truthy match option_map VStr topic with
                                        | Some v => v
                                        | None => VNone
                                        end)
                      then VStr ADAPTER_TOPIC
                      else match option_map VStr topic with
                           | Some v => v
                           | None => VNone
                           end) = VStr (outbound_topic topic)).
    { destruct topic as [t|]; cbn; [|reflexivity].
      destruct (String.eqb t EmptyString); reflexivity. }
    rewrite Htopic.
    unfold publish_payload, bind, lift, Msgpack.packb. rewrite Hf, Hopen. reflexivity.
  - now intros ->.
  - intros Hnone. unfold stamped, get_or_none. rewrite Hnone. cbn [truthy].
    apply CodecFacts.dict_set_fresh.
    clear - Hnone. induction d as [|[k v] d IH]; cbn in *; [reflexivity|].
    destruct (String.eqb k "extension_id"); [discriminate | auto].
  - intros m' Hm. unfold publish, get_or_none, bind, lift, py_get.
    rewrite Hm. reflexivity.
Qed.

(** A message with neither topic nor identity. *)
Lemma publish_sends_once_hello :
  (exists frame,
      Msgpack.packb
        (VDict (stamped "eim" [("content", VStr "hello")])) = Ok frame
      /\ publish (VDict [("payload", VDict [("content", VStr "hello")])])
           Scenario.plain
         = (Ok tt, add_sent [Utf8.encode (outbound_topic None); frame] Scenario.plain))
  /\ (@None string = None -> outbound_topic None = ADAPTER_TOPIC)
  /\ (dict_get [("content", VStr "hello")] "extension_id" = None ->
      stamped "eim" [("content", VStr "hello")]
      = [("content", VStr "hello"); ("extension_id", VStr "eim")])
  /\ (forall m', dict_get m' "payload" = None ->
                 publish (VDict m') Scenario.plain
                 = (Err AttributeError, Scenario.plain)).
Proof.
  apply (publish_sends_once Scenario.plain
           [("payload", VDict [("content", VStr "hello")])]
           [("content", VStr "hello")] None);
    [reflexivity | reflexivity | reflexivity | vm_compute; reflexivity
    | vm_compute; discriminate].
Defined.

(** C9 (the claim as stated fails). An interrupt during the idle sleep
    does not let [receive_loop] return: [KeyboardInterrupt] leaves it. *)
Lemma interrupt_is_raised_again :
  fst (receive_loop message_handle [NothingInterrupted] Scenario.plain)
  <> Returned.
Proof. vm_compute. discriminate. Qed.

(** C9 (amended). When a cancellation interrupt arrives during the idle
    sleep of the receive loop, the node performs an orderly shutdown
    (running flag cleared, both channels closed, context terminated) and
    the loop terminates by raising [KeyboardInterrupt] again to the
    surrounding context. *)
Theorem interrupt_shuts_down (handle : string -> value -> M unit)
  (pre rest : list tick) (n n1 : node) :
  receive_loop handle pre n = (Waiting, n1) ->
  subscriber_closed n1 = false ->
  implb (obj_truthy n1.(receive_loop_idle_addition))
        (callable n1.(receive_loop_idle_addition)) = true ->
  exists n2,
    receive_loop handle (pre ++ NothingInterrupted :: rest) n
    = (Raised KeyboardInterrupt, n2)
    /\ _running n2 = false
    /\ publisher_closed n2 = true
    /\ subscriber_closed n2 = true
    /\ context_terminated n2 = true
    /\ sent n2 = sent n1.
Proof.
  intros Hpre Hsub Hidle.
  pose proof (NodeFacts.receive_loop_waiting _ _ _ _ Hpre) as Hrun.
  destruct (NodeFacts.idle_ok n1 Hidle) as [cs Hcs].
  rewrite NodeFacts.receive_loop_app, Hpre.
  cbn [receive_loop]. rewrite Hrun, Hsub. cbn [negb]. rewrite Hcs.
  eexists. split; [reflexivity|]. cbn. repeat split; reflexivity.
Qed.

(** The interrupt after one message and one idle turn. *)
Lemma interrupt_shuts_down_after_message :
  exists n2,
    receive_loop message_handle
      ([Frames [Utf8.encode SCRATCH_TOPIC; Scenario.frame_of (Scenario.hello "eim")];
        Nothing] ++ NothingInterrupted :: [Nothing]) Scenario.observed
    = (Raised KeyboardInterrupt, n2)
    /\ _running n2 = false
    /\ publisher_closed n2 = true
    /\ subscriber_closed n2 = true
    /\ context_terminated n2 = true
    /\ sent n2
       = sent (snd (receive_loop message_handle
                      [Frames [Utf8.encode SCRATCH_TOPIC;
                               Scenario.frame_of (Scenario.hello "eim")];
                       Nothing] Scenario.observed)).
Proof.
  apply (interrupt_shuts_down message_handle
           [Frames [Utf8.encode SCRATCH_TOPIC; Scenario.frame_of (Scenario.hello "eim")];
            Nothing]
           [Nothing] Scenario.observed
           (snd (receive_loop message_handle
                   [Frames [Utf8.encode SCRATCH_TOPIC;
                            Scenario.frame_of (Scenario.hello "eim")];
                    Nothing] Scenario.observed)));
    vm_compute; reflexivity.
Defined.

(** C10. For every callable handler and every class key outside the fixed
    key set of the registry (the four message classes and ["all"]),
    [add_handler] raises [KeyError] and leaves the node, hence the registry,
    as it was, whereas [get_handlers] with that key raises nothing and
    returns exactly the catch-all handlers. *)
Theorem unknown_class_key (n : node) (f k : string) :
  dict_keys n.(_handlers) = NodeFacts.registry_keys ->
  mem_string k NodeFacts.registry_keys = false ->
  add_handler (Func f) k n = (Err KeyError, n)
  /\ exists catch_all,
       dict_get n.(_handlers) "all" = Some catch_all
       /\ get_handlers k n = (Ok catch_all, n).
Proof.
  intros Hkeys Hk.
  assert (Hnone : dict_get (_handlers n) k = None).
  { apply NodeFacts.dict_get_none. now rewrite Hkeys. }
  split.
  - unfold add_handler. cbn [callable negb]. now rewrite Hnone.
  - destruct (NodeFacts.dict_get_some (_handlers n) "all") as [l Hl].
    { rewrite Hkeys. reflexivity. }
    exists l. split; [exact Hl|].
    unfold get_handlers. now rewrite Hnone, Hl.
Qed.

(** A misspelt class key. *)
Lemma unknown_class_key_typo :
  add_handler (Func "h") "from_scrach" (Scenario.registered "h1" "h2" "h3")
  = (Err KeyError, Scenario.registered "h1" "h2" "h3")
  /\ exists catch_all,
       dict_get (Scenario.registered "h1" "h2" "h3").(_handlers) "all"
       = Some catch_all
       /\ get_handlers "from_scrach" (Scenario.registered "h1" "h2" "h3")
          = (Ok catch_all, Scenario.registered "h1" "h2" "h3").
Proof.
  apply (unknown_class_key (Scenario.registered "h1" "h2" "h3") "h" "from_scrach");
    reflexivity.
Defined.

End NodeClaims.

(* ------------------------------------------------------------------ *)
(** ** The rate limiter *)

Module BucketFacts.
Import Bucket.
Local Open Scope Q_scope.

Lemma Qlt_bool_iff (a b : Q) : Qlt_bool a b = true <-> a < b.
Proof.
  unfold Qlt_bool. rewrite negb_true_iff.
  destruct (Qle_bool b a) eqn:E.
  - apply Qle_bool_iff in E. split; [discriminate | intros H; lra].
  - split; [intros _ | reflexivity].
    apply Qnot_le_lt. intros H. apply Qle_bool_iff in H. congruence.
Qed.

Lemma min_cases (a b : Q) : (min a b = a /\ a <= b) \/ (min a b = b /\ b < a).
Proof.
  unfold min. destruct (Qlt_bool b a) eqn:E.
  - right. split; [reflexivity|]. now apply Qlt_bool_iff.
  - left. split; [reflexivity|].
    apply Qnot_lt_le. intros H. apply Qlt_bool_iff in H. congruence.
Qed.

(** What holds of a bucket between two operations, [t] being the last
    clock reading. *)
Definition sound (t : Q) (b : TokenBucket) : Prop :=
  0 <= b.(fill_rate) /\ in_range b /\ b.(timestamp) <= t.

Lemma get_tokens_sound (t now : Q) (b : TokenBucket) :
  sound t b -> t <= now -> sound now (snd (get_tokens now b)).
Proof.
  intros (Hr & (H0 & Hc) & Ht) Hnow. unfold get_tokens.
  destruct (Qlt_bool (_tokens b) (capacity b)) eqn:E; cbn [snd].
  - unfold sound, in_range. cbn [fill_rate _tokens capacity timestamp].
    assert (Hd : 0 <= fill_rate b * (now - timestamp b)).
    { apply Qmult_le_0_compat; lra. }
    destruct (min_cases (capacity b) (_tokens b + fill_rate b * (now - timestamp b)))
      as [[-> H]|[-> H]]; repeat split; lra.
  - unfold sound, in_range. repeat split; try assumption. lra.
Qed.

End BucketFacts.

Section BucketClaims.

Import Bucket64.

(** C7. [consume(n)] first refills lazily: a bucket below its capacity gains
    fill_rate times the seconds since its timestamp, capped at the capacity,
    and its timestamp becomes the clock reading; a full bucket is left alone.
    Then, if [n] is at most the refilled count, [n] is deducted and the
    result is [True]; otherwise the result is [False] and nothing is
    deducted.  On a fresh bucket of capacity 80 and fill rate 0.5,
    [consume(10)] succeeds and leaves 70 tokens, and [consume(90)] fails and
    leaves 80.  After that [consume(10)], a [consume(75)] at the same
    instant fails at 70 tokens, 4 seconds later it fails at 72 tokens, and
    20 seconds later it succeeds and leaves 5. *)
Theorem consume_refills_then_deducts (n now t0 : float) (b : TokenBucket) :
  (let below := lt b.(_tokens) b.(capacity) in
   let elapsed := sub now b.(timestamp) in
   let refilled := add b.(_tokens) (mul b.(fill_rate) elapsed) in
   let current :=
     if below then (if lt refilled b.(capacity) then refilled else b.(capacity))
     else b.(_tokens) in
   let stamp := if below then now else b.(timestamp) in
   consume n now b
   = if le n current
     then (true, mkBucket b.(capacity) (sub current n) b.(fill_rate) stamp)
     else (false, mkBucket b.(capacity) current b.(fill_rate) stamp))
  /\ consume (of_Z 10) now (init (of_Z 80) (dyadic 1 (-1)) t0)
     = (true, mkBucket (of_Z 80) (of_Z 70) (dyadic 1 (-1)) t0)
  /\ consume (of_Z 90) now (init (of_Z 80) (dyadic 1 (-1)) t0)
     = (false, init (of_Z 80) (dyadic 1 (-1)) t0)
  /\ (let s := of_Z 1700000000 in
      let b1 := mkBucket (of_Z 80) (of_Z 70) (dyadic 1 (-1)) s in
      consume (of_Z 75) s b1
      = (false, mkBucket (of_Z 80) (of_Z 70) (dyadic 1 (-1)) s)
      /\ consume (of_Z 75) (of_Z 1700000004) b1
         = (false, mkBucket (of_Z 80) (of_Z 72) (dyadic 1 (-1)) (of_Z 1700000004))
      /\ consume (of_Z 75) (of_Z 1700000020) b1
         = (true, mkBucket (of_Z 80) (of_Z 5) (dyadic 1 (-1)) (of_Z 1700000020))).
Proof.
  split; [|split; [|split]].
  - unfold consume, get_tokens, min. cbn zeta.
    destruct b as [c k r s]. cbn [capacity _tokens fill_rate timestamp].
    destruct (lt k c); cbn [_tokens capacity fill_rate timestamp].
    + destruct (lt (add k (mul r (sub now s))) c); reflexivity.
    + destruct (le n k); reflexivity.
  - vm_compute. reflexivity.
  - vm_compute. reflexivity.
  - vm_compute. repeat split.
Qed.

(** C8 (as the code behaves). A bucket of capacity 80 and fill rate 0.5 is
    built at second 1700000000; [consume(80)] at second 1700001000 finds it
    full, empties it and leaves the timestamp at 1700000000; a read of the
    tokens at second 1700001001, one second after that check, returns 80.0:
    the refill is computed over the 1001 seconds since the construction,
    whereas fill_rate times the one second since the last check is 0.5. *)
Theorem full_bucket_check_keeps_old_timestamp :
  let t0 := of_Z 1700000000 in
  let t1 := of_Z 1700001000 in
  let t2 := of_Z 1700001001 in
  let half := dyadic 1 (-1) in
  let fresh := init (of_Z 80) half t0 in
  consume (of_Z 80) t1 fresh = (true, mkBucket (of_Z 80) (of_Z 0) half t0)
  /\ get_tokens t2 (snd (consume (of_Z 80) t1 fresh))
     = (of_Z 80, mkBucket (of_Z 80) (of_Z 80) half t2)
  /\ mul half (sub t2 t1) = half
  /\ min (of_Z 80) (add (of_Z 0) (mul half (sub t2 t1))) = half
  /\ half <> of_Z 80.
Proof. vm_compute. repeat split. discriminate. Qed.

(** [consume] does not check the sign of the amount: a negative one is
    granted and raises the count above the capacity. *)
Lemma negative_amount_exceeds_capacity (now t0 : float) :
  consume (of_Z (-10)) now (init (of_Z 80) (dyadic 1 (-1)) t0)
  = (true, mkBucket (of_Z 80) (of_Z 90) (dyadic 1 (-1)) t0)
  /\ le (of_Z 90) (of_Z 80) = false.
Proof. vm_compute. split; reflexivity. Qed.

(** With an infinite capacity, consuming infinity leaves NaN, which is
    neither at least 0 nor at most the capacity. *)
Lemma infinite_amount_leaves_nan (rate now t0 : float) :
  let inf := S754_infinity false in
  consume inf now (init inf rate t0) = (true, mkBucket inf S754_nan rate t0)
  /\ le (of_Z 0) S754_nan = false
  /\ le S754_nan inf = false.
Proof. vm_compute. repeat split. Qed.

(** Float addition rounds: a refill of 0.1 tokens on 70 adds slightly less
    than 0.1. *)
Lemma refill_is_rounded :
  let tenth := dyadic 3602879701896397 (-55) in
  sub (add (of_Z 70) tenth) (of_Z 70) <> tenth
  /\ lt (sub (add (of_Z 70) tenth) (of_Z 70)) tenth = true.
Proof. vm_compute. split; [discriminate | reflexivity]. Qed.

End BucketClaims.

(* ------------------------------------------------------------------ *)
(** ** Further properties of the handler registry *)

Module RegistryFacts.
Import Node.
Local Open Scope string_scope.
Local Open Scope list_scope.

Lemma dict_get_set_same {A} (d : dict A) (k : string) (v0 v : A) :
  dict_get d k = Some v0 -> dict_get (dict_set d k v) k = Some v.
Proof.
  induction d as [|[k' v'] d IH]; cbn; [discriminate|].
  destruct (String.eqb k' k) eqn:E; cbn; rewrite E; auto.
Qed.

Lemma dict_get_set_other {A} (d : dict A) (k k' : string) (v : A) :
  k' <> k -> dict_get (dict_set d k v) k' = dict_get d k'.
Proof.
  intros Hne. induction d as [|[k0 v0] d IH]; cbn.
  - destruct (String.eqb_spec k k'); [congruence | reflexivity].
  - destruct (String.eqb_spec k0 k); cbn.
    + subst k0. destruct (String.eqb_spec k k'); [congruence | reflexivity].
    + destruct (String.eqb k0 k'); [reflexivity | exact IH].
Qed.

Lemma add_handlers_keys (cs : list (pyobj * string)) : forall n,
  dict_keys (Runs.add_handlers cs n).(_handlers) = dict_keys n.(_handlers).
Proof.
  induction cs as [|[f k] cs IH]; intros n; cbn; [reflexivity|].
  unfold Runs.add_handlers in IH. rewrite IH.
  apply NodeFacts.add_handler_keys.
Qed.

End RegistryFacts.

Section RegistryProperties.

Import Node.
Local Open Scope string_scope.
Local Open Scope list_scope.

(** X1. A successful [add_handler(f, k)] appends [f] to the handlers of
    class [k] and changes the handlers of no other class: looking up any key
    afterwards gives the old list, with [f] at its end for [k] itself. *)
Theorem add_handler_lookup (f k k' : string) (n : node) (old : list pyobj) :
  dict_get n.(_handlers) k = Some old ->
  let n' := snd (add_handler (Func f) k n) in
  fst (add_handler (Func f) k n) = Ok tt
  /\ dict_get n'.(_handlers) k = Some (old ++ [Func f])
  /\ (k' <> k -> dict_get n'.(_handlers) k' = dict_get n.(_handlers) k')
  /\ dict_keys n'.(_handlers) = dict_keys n.(_handlers).
Proof.
  intros Hold n'. subst n'. unfold add_handler. cbn [callable negb].
  rewrite Hold. cbn [fst snd _handlers set_handlers].
  split; [reflexivity|]. split; [|split].
  - eapply RegistryFacts.dict_get_set_same; eauto.
  - intros Hne. now apply RegistryFacts.dict_get_set_other.
  - apply NodeFacts.dict_set_keys. eapply NodeFacts.mem_string_get; eauto.
Qed.

(** A third handler under ["from_scratch"], seen from ["all"]. *)
Lemma add_handler_lookup_third :
  let n := Scenario.registered "h1" "h2" "h3" in
  let n' := snd (add_handler (Func "h4") "from_scratch" n) in
  fst (add_handler (Func "h4") "from_scratch" n) = Ok tt
  /\ dict_get n'.(_handlers) "from_scratch" = Some ([Func "h1"; Func "h2"] ++ [Func "h4"])
  /\ ("all" <> "from_scratch" ->
      dict_get n'.(_handlers) "all" = dict_get n.(_handlers) "all")
  /\ dict_keys n'.(_handlers) = dict_keys n.(_handlers).
Proof.
  apply (add_handler_lookup "h4" "from_scratch" "all"
           (Scenario.registered "h1" "h2" "h3") [Func "h1"; Func "h2"]).
  reflexivity.
Defined.

(** X2. On a constructed AdapterNode, after any sequence of [add_handler]
    calls (with any objects and any keys, failed calls included), the
    registry has the same five keys and [get_handlers] raises for no key. *)
Theorem get_handlers_never_raises (nm : string) (emp hook : pyobj)
  (cs : list (pyobj * string)) (k : string) :
  let n := Runs.add_handlers cs (connected nm emp hook) in
  dict_keys n.(_handlers) = NodeFacts.registry_keys
  /\ exists l, get_handlers k n = (Ok l, n).
Proof.
  intros n.
  assert (Hk : dict_keys n.(_handlers) = NodeFacts.registry_keys).
  { subst n. rewrite RegistryFacts.add_handlers_keys. reflexivity. }
  split; [exact Hk|].
  destruct (NodeFacts.dict_get_some (_handlers n) "all") as [l Hl].
  { rewrite Hk. reflexivity. }
  unfold get_handlers. rewrite Hl. eauto.
Qed.

(** X3. On a node with the registry keys of the constructor, [handler(f)]
    returns [f], and afterwards [f] is the last handler that [get_handlers]
    lists for every class key. *)
Theorem handler_fires_last (f k : string) (n : node) :
  dict_keys n.(_handlers) = NodeFacts.registry_keys ->
  let n' := snd (handler (Func f) n) in
  fst (handler (Func f) n) = Ok (Func f)
  /\ exists l, get_handlers k n' = (Ok (l ++ [Func f]), n').
Proof.
  intros Hk n'.
  destruct (NodeFacts.dict_get_some (_handlers n) "all") as [l Hl].
  { rewrite Hk. reflexivity. }
  assert (E : handler (Func f) n
              = (Ok (Func f),
                 set_handlers (dict_set n.(_handlers) "all" (l ++ [Func f])) n)).
  { unfold handler, bind, add_handler, ret. cbn [callable negb]. now rewrite Hl. }
  subst n'. rewrite E. cbn [fst snd]. split; [reflexivity|].
  unfold get_handlers. cbn [_handlers set_handlers].
  rewrite (RegistryFacts.dict_get_set_same _ _ _ (l ++ [Func f]) Hl).
  destruct (String.eqb_spec k "all") as [->|Hne].
  - rewrite (RegistryFacts.dict_get_set_same _ _ _ (l ++ [Func f]) Hl).
    exists ((l ++ [Func f]) ++ l). now rewrite !app_assoc.
  - rewrite RegistryFacts.dict_get_set_other by exact Hne.
    destruct (dict_get (_handlers n) k) as [s|].
    + exists (s ++ l). now rewrite app_assoc.
    + exists l. reflexivity.
Qed.

(** [handler] on the registry of the scenario, read under ["from_scratch"]. *)
Lemma handler_fires_last_registered :
  let n := Scenario.registered "h1" "h2" "h3" in
  let n' := snd (handler (Func "h4") n) in
  fst (handler (Func "h4") n) = Ok (Func "h4")
  /\ exists l, get_handlers "from_scratch" n' = (Ok (l ++ [Func "h4"]), n').
Proof.
  apply (handler_fires_last "h4" "from_scratch" (Scenario.registered "h1" "h2" "h3")).
  reflexivity.
Defined.

End RegistryProperties.

(* ------------------------------------------------------------------ *)
(** ** Further properties of the publishing methods *)

Module PublishFacts.
Import Node Runs.
Local Open Scope string_scope.
Local Open Scope list_scope.

(** [publish] is [publish_payload] on the stamped payload and on the topic
    of the message, or on [ADAPTER_TOPIC] when that topic is falsy. *)
Lemma publish_as_publish_payload (m d : dict value) (n : node) :
  dict_get m "payload" = Some (VDict d) ->
  publish (VDict m) n
  = publish_payload (VDict (stamped n.(EXTENSION_ID) d))
      (if truthy (get_or_none m "topic") then get_or_none m "topic"
       else VStr ADAPTER_TOPIC) n.
Proof.
  intros Hp. unfold publish.
  replace (get_or_none m "payload") with (VDict d)
    by (unfold get_or_none; now rewrite Hp).
  unfold bind, lift, py_get, get_extension_id, stamped.
  destruct (truthy (get_or_none d "extension_id"));
    destruct (truthy (get_or_none m "topic")); reflexivity.
Qed.

Lemma publish_payload_sends (payload : value) (t : string) (frame : bytes)
  (n : node) :
  publisher_closed n = false ->
  Msgpack.packb payload = Ok frame ->
  publish_payload payload (VStr t) n
  = (Ok tt, add_sent [Utf8.encode t; frame] n).
Proof.
  intros Hopen Hf. unfold publish_payload, bind, lift. now rewrite Hf, Hopen.
Qed.

Lemma publish_payload_one_send (payload topic : value) (n : node) :
  one_send_or_nothing (publish_payload payload topic n) n.
Proof.
  unfold publish_payload, bind, lift.
  destruct topic; cbn; try reflexivity.
  destruct (Msgpack.packb payload); cbn; [|reflexivity].
  destruct (publisher_closed n); cbn; eauto.
Qed.

Lemma dict_get_stamped_other (identity : string) (d : dict value) (k : string) :
  k <> "extension_id" -> dict_get (stamped identity d) k = dict_get d k.
Proof.
  intros Hne. unfold stamped.
  destruct (truthy (get_or_none d "extension_id")); [reflexivity|].
  now apply RegistryFacts.dict_get_set_other.
Qed.

Lemma dict_get_set_new {A} (d : dict A) (k : string) (v : A) :
  dict_get (dict_set d k v) k = Some v.
Proof.
  induction d as [|[k' v'] d IH]; cbn.
  - now rewrite String.eqb_refl.
  - destruct (String.eqb k' k) eqn:E; cbn; rewrite E; auto.
Qed.

Lemma get_stamped_identity (identity : string) (d : dict value) :
  get_or_none (stamped identity d) "extension_id"
  = if truthy (get_or_none d "extension_id")
    then get_or_none d "extension_id" else VStr identity.
Proof.
  unfold stamped.
  destruct (truthy (get_or_none d "extension_id")); [reflexivity|].
  unfold get_or_none. now rewrite dict_get_set_new.
Qed.

End PublishFacts.

Section PublishProperties.

Import Node.
Local Open Scope string_scope.
Local Open Scope list_scope.

(** X4. Each of [publish_payload], [publish], [pub_notification] and
    [pub_status] either raises and leaves the node as it was, or returns
    having appended exactly one message of exactly two frames to what the
    publisher sent, and having changed nothing else. *)
Theorem publishing_is_all_or_nothing (message payload topic content type : value)
  (n : node) :
  Runs.one_send_or_nothing (publish_payload payload topic n) n
  /\ Runs.one_send_or_nothing (publish message n) n
  /\ Runs.one_send_or_nothing (pub_notification content topic type n) n
  /\ Runs.one_send_or_nothing (pub_status content n) n.
Proof.
  split; [apply PublishFacts.publish_payload_one_send|].
  split; [|split; apply PublishFacts.publish_payload_one_send].
  destruct message as [| | | | | | |m|]; try reflexivity.
  unfold publish, bind, lift.
  destruct (get_or_none m "payload") as [| | | | | | |d|]; try reflexivity.
  cbn [py_get]. apply PublishFacts.publish_payload_one_send.
Qed.

(** X5. For a message whose payload is a mapping that the codec accepts
    once stamped, [publish] raises [TypeError] exactly when the topic of the
    message is truthy and not a string; a falsy topic of any type (absent,
    [None], [0], [""], an empty list) is replaced by [ADAPTER_TOPIC]. *)
Theorem publish_topic_check (n : node) (m d : dict value) (frame : bytes) :
  dict_get m "payload" = Some (VDict d) ->
  Msgpack.packb (VDict (stamped n.(EXTENSION_ID) d)) = Ok frame ->
  let topic := get_or_none m "topic" in
  (fst (publish (VDict m) n) = Err TypeError
   <-> truthy topic = true /\ is_str topic = false)
  /\ (truthy topic = false -> publisher_closed n = false ->
      publish (VDict m) n
      = (Ok tt, add_sent [Utf8.encode ADAPTER_TOPIC; frame] n)).
Proof.
  intros Hp Hf topic. rewrite (PublishFacts.publish_as_publish_payload m d n Hp).
  fold topic. split.
  - destruct (truthy topic) eqn:Ht.
    + destruct topic; cbn [is_str publish_payload raise fst];
        try (split; [auto | reflexivity]).
      unfold bind, lift. rewrite Hf.
      destruct (publisher_closed n); cbn; split;
        try discriminate; intros [_ H]; discriminate.
    + unfold publish_payload, bind, lift. rewrite Hf.
      destruct (publisher_closed n); cbn; split;
        try discriminate; intros [H _]; discriminate.
  - intros -> Hopen. now apply PublishFacts.publish_payload_sends.
Qed.

(** A message whose topic is the integer 0. *)
Lemma publish_topic_check_zero :
  let m := [("topic", VInt 0); ("payload", VDict (Scenario.hello "eim"))] in
  let topic := get_or_none m "topic" in
  (fst (publish (VDict m) Scenario.plain) = Err TypeError
   <-> truthy topic = true /\ is_str topic = false)
  /\ (truthy topic = false -> publisher_closed Scenario.plain = false ->
      publish (VDict m) Scenario.plain
      = (Ok tt,
         add_sent [Utf8.encode ADAPTER_TOPIC;
                   Scenario.frame_of (Scenario.hello "eim")] Scenario.plain)).
Proof.
  apply (publish_topic_check Scenario.plain
           [("topic", VInt 0); ("payload", VDict (Scenario.hello "eim"))]
           (Scenario.hello "eim") (Scenario.frame_of (Scenario.hello "eim")));
    vm_compute; reflexivity.
Defined.

(** X6. What [publish] puts on the wire decodes to the caller's payload
    with at most the identity field changed: every other key keeps its
    value, a truthy identity is kept (even that of another node), and a
    missing or falsy one becomes the identity of the node. *)
Theorem published_payload_fields (n : node) (m d : dict value)
  (topic : option string) :
  publisher_closed n = false ->
  dict_get m "topic" = option_map VStr topic ->
  dict_get m "payload" = Some (VDict d) ->
  Msgpack.supported (VDict (stamped n.(EXTENSION_ID) d)) = true ->
  Msgpack.height (VDict (stamped n.(EXTENSION_ID) d))
  <= Msgpack.DEFAULT_RECURSE_LIMIT + 1 ->
  exists t frame d',
    publish (VDict m) n = (Ok tt, add_sent [t; frame] n)
    /\ Msgpack.unpackb frame = Ok (VDict d')
    /\ get_or_none d' "extension_id"
       = (if truthy (get_or_none d "extension_id")
          then get_or_none d "extension_id" else VStr n.(EXTENSION_ID))
    /\ forall k, k <> "extension_id" -> dict_get d' k = dict_get d k.
Proof.
  intros Hopen Ht Hp Hs Hh.
  destruct (CodecFacts.pack_total _ _ Hs Hh) as [frame Hf].
  rewrite (PublishFacts.publish_as_publish_payload m d n Hp).
  assert (Htopic : exists t,
             (if truthy (get_or_none m "topic") then get_or_none m "topic"
              else VStr ADAPTER_TOPIC) = VStr t).
  { unfold get_or_none. rewrite Ht. destruct topic as [t|]; cbn; [|eauto].
    destruct (String.eqb t EmptyString); cbn; eauto. }
  destruct Htopic as [t ->].
  exists (Utf8.encode t), frame, (stamped (EXTENSION_ID n) d).
  split; [now apply PublishFacts.publish_payload_sends|].
  split; [now apply CodecFacts.unpackb_packb|].
  split; [apply PublishFacts.get_stamped_identity|].
  intros k Hk. now apply PublishFacts.dict_get_stamped_other.
Qed.

(** A payload that carries the identity of another node. *)
Lemma published_payload_fields_other :
  exists t frame d',
    publish (VDict [("payload", VDict (Scenario.hello "other"))]) Scenario.plain
    = (Ok tt, add_sent [t; frame] Scenario.plain)
    /\ Msgpack.unpackb frame = Ok (VDict d')
    /\ get_or_none d' "extension_id"
       = (if truthy (get_or_none (Scenario.hello "other") "extension_id")
          then get_or_none (Scenario.hello "other") "extension_id"
          else VStr Scenario.plain.(EXTENSION_ID))
    /\ forall k, k <> "extension_id" ->
                 dict_get d' k = dict_get (Scenario.hello "other") k.
Proof.
  apply (published_payload_fields Scenario.plain
           [("payload", VDict (Scenario.hello "other"))]
           (Scenario.hello "other") None);
    [reflexivity | reflexivity | reflexivity | vm_compute; reflexivity
    | vm_compute; discriminate].
Defined.

(** X7. On an open publisher, [pub_status(statu)] sends one message on
    ["from_adapter/extensions/status"] whose payload frame decodes to the
    mapping of the node's identity and of [statu] under ["content"]. *)
Theorem pub_status_payload (statu : value) (n : node) :
  publisher_closed n = false ->
  Msgpack.text_ok n.(EXTENSION_ID) = true ->
  Msgpack.supported statu = true ->
  Msgpack.height statu <= Msgpack.DEFAULT_RECURSE_LIMIT ->
  exists frame,
    pub_status statu n
    = (Ok tt, add_sent [Utf8.encode "from_adapter/extensions/status"; frame] n)
    /\ Msgpack.unpackb frame
       = Ok (VDict [("extension_id", VStr n.(EXTENSION_ID)); ("content", statu)]).
Proof.
  intros Hopen Hid Hs Hh.
  set (payload := [("extension_id", VStr n.(EXTENSION_ID)); ("content", statu)]).
  assert (Hsup : Msgpack.supported (VDict payload) = true).
  { subst payload. cbn [Msgpack.supported forallb fst snd]. rewrite Hid, Hs.
    reflexivity. }
  assert (Hht : Msgpack.height (VDict payload) <= Msgpack.DEFAULT_RECURSE_LIMIT + 1).
  { subst payload. cbn [Msgpack.height fold_right snd].
    pose proof (CodecFacts.height_pos statu). lia. }
  destruct (CodecFacts.pack_total _ _ Hsup Hht) as [frame Hf].
  exists frame. split; [|now apply CodecFacts.unpackb_packb].
  change (pub_status statu n)
    with (publish_payload (VDict payload)
            (VStr "from_adapter/extensions/status") n).
  now apply PublishFacts.publish_payload_sends.
Qed.

(** The status ["ready"]. *)
Lemma pub_status_payload_ready :
  exists frame,
    pub_status (VStr "ready") Scenario.plain
    = (Ok tt,
       add_sent [Utf8.encode "from_adapter/extensions/status"; frame] Scenario.plain)
    /\ Msgpack.unpackb frame
       = Ok (VDict [("extension_id", VStr Scenario.plain.(EXTENSION_ID));
                    ("content", VStr "ready")]).
Proof.
  apply (pub_status_payload (VStr "ready") Scenario.plain);
    [reflexivity | vm_compute; reflexivity | vm_compute; reflexivity
    | vm_compute; discriminate].
Defined.

(** X8. On an open publisher, [pub_notification(content, topic, type)]
    with a string topic sends one message on that very topic (no default
    replaces an empty one) whose payload frame decodes to the mapping of
    [type], of the node's identity and of [content], in that order. *)
Theorem pub_notification_payload (content type : value) (t : string) (n : node) :
  publisher_closed n = false ->
  Msgpack.text_ok n.(EXTENSION_ID) = true ->
  Msgpack.supported content = true ->
  Msgpack.supported type = true ->
  Msgpack.height content <= Msgpack.DEFAULT_RECURSE_LIMIT ->
  Msgpack.height type <= Msgpack.DEFAULT_RECURSE_LIMIT ->
  exists frame,
    pub_notification content (VStr t) type n
    = (Ok tt, add_sent [Utf8.encode t; frame] n)
    /\ Msgpack.unpackb frame
       = Ok (VDict [("type", type); ("extension_id", VStr n.(EXTENSION_ID));
                    ("content", content)]).
Proof.
  intros Hopen Hid Hc Ht Hhc Hht.
  set (payload := [("type", type); ("extension_id", VStr n.(EXTENSION_ID));
                   ("content", content)]).
  assert (Hsup : Msgpack.supported (VDict payload) = true).
  { subst payload. cbn [Msgpack.supported forallb fst snd]. rewrite Hid, Hc, Ht.
    reflexivity. }
  assert (Hh : Msgpack.height (VDict payload) <= Msgpack.DEFAULT_RECURSE_LIMIT + 1).
  { subst payload. cbn [Msgpack.height fold_right snd].
    pose proof (CodecFacts.height_pos content).
    pose proof (CodecFacts.height_pos type). lia. }
  destruct (CodecFacts.pack_total _ _ Hsup Hh) as [frame Hf].
  exists frame. split; [|now apply CodecFacts.unpackb_packb].
  change (pub_notification content (VStr t) type n)
    with (publish_payload (VDict payload) (VStr t) n).
  now apply PublishFacts.publish_payload_sends.
Qed.

(** An error notification on the default topic. *)
Lemma pub_notification_payload_error :
  exists frame,
    pub_notification (VStr "no device") (VStr NOTIFICATION_TOPIC) (VStr "ERROR")
      Scenario.plain
    = (Ok tt, add_sent [Utf8.encode NOTIFICATION_TOPIC; frame] Scenario.plain)
    /\ Msgpack.unpackb frame
       = Ok (VDict [("type", VStr "ERROR");
                    ("extension_id", VStr Scenario.plain.(EXTENSION_ID));
                    ("content", VStr "no device")]).
Proof.
  apply (pub_notification_payload (VStr "no device") (VStr "ERROR")
           NOTIFICATION_TOPIC Scenario.plain);
    [reflexivity | vm_compute; reflexivity | vm_compute; reflexivity
    | vm_compute; reflexivity | vm_compute; discriminate
    | vm_compute; discriminate].
Defined.

End PublishProperties.

(* ------------------------------------------------------------------ *)
(** ** Further properties of dispatch and of the receive loop *)

Module LoopFacts.
Import Node Runs.
Local Open Scope string_scope.
Local Open Scope list_scope.

Lemma add_calls_nil (n : node) : add_calls [] n = n.
Proof. destruct n. unfold add_calls. cbn. now rewrite app_nil_r. Qed.

Lemma add_calls_app (a b : list call) (n : node) :
  add_calls b (add_calls a n) = add_calls (a ++ b) n.
Proof. unfold add_calls. cbn. now rewrite app_assoc. Qed.

Lemma add_call_as_calls (c : call) (n : node) : add_call c n = add_calls [c] n.
Proof. reflexivity. Qed.

(** [message_handle] on a mapping, for a node whose external processor is
    absent or a function. *)
Lemma message_handle_routed (n : node) (emp : option string) (topic : string)
  (d : dict value) :
  external_message_processor n = processor emp ->
  message_handle topic (VDict d) n
  = (Ok tt, add_calls (routed n.(EXTENSION_ID) emp topic d) n).
Proof.
  destruct n as [run nm id p idl h sub snt pc sc ct cs].
  cbn [external_message_processor]. intros ->.
  unfold message_handle, routed, bind, lift, ret, py_get, get_extension_id,
    extension_message_handle, exit_message_handle, modify, add_calls, add_call,
    processor, invoke, obj_truthy.
  cbn.
  destruct (eq_str (get_or_none d "extension_id") id) eqn:E;
    destruct (String.eqb topic SCRATCH_TOPIC);
    destruct (String.eqb topic EXTENSIONS_OPERATE_TOPIC);
    destruct emp; cbn; rewrite ?E; cbn; rewrite ?E; cbn;
    unfold modify, add_call; cbn;
    rewrite ?app_nil_r, <- ?app_assoc; reflexivity.
Qed.

(** [message_handle] only adds to the calls of the node. *)
Lemma message_handle_calls_only (topic : string) (payload : value) (n : node) :
  exists cs, snd (message_handle topic payload n) = add_calls cs n.
Proof.
  assert (Hself : forall m, exists cs, m = add_calls cs m)
    by (intros m; exists []; now rewrite add_calls_nil).
  assert (Hstep : forall (c : call) (m : node) cs,
             m = add_calls cs n -> exists cs', add_call c m = add_calls cs' n).
  { intros c m cs ->. exists (cs ++ [c]).
    rewrite add_call_as_calls. apply add_calls_app. }
  assert (Hlast : forall m cs,
             m = add_calls cs n ->
             exists cs',
               snd ((fun n0 : node =>
                       if obj_truthy (external_message_processor n0)
                       then invoke (external_message_processor n0)
                              [VStr topic; payload] n0
                       else (Ok tt, n0)) m) = add_calls cs' n).
  { intros m cs Hm. cbn beta.
    destruct (obj_truthy (external_message_processor m)); [|cbn; eauto].
    destruct (external_message_processor m); cbn; [|eauto].
    eapply Hstep; eauto. }
  unfold message_handle, bind, lift, ret, py_get, get_extension_id,
    extension_message_handle, exit_message_handle, modify.
  destruct (String.eqb topic SCRATCH_TOPIC);
    destruct (String.eqb topic EXTENSIONS_OPERATE_TOPIC);
    destruct payload; cbn [fst snd];
    repeat match goal with
           | |- context [if eq_str ?a ?b then _ else _] => destruct (eq_str a b)
           end;
    cbn [fst snd];
    first [ exists []; now rewrite add_calls_nil
          | eapply Hlast; symmetry; apply add_calls_nil
          | eapply Hlast; rewrite !add_call_as_calls, ?add_calls_app; reflexivity ].
Qed.

End LoopFacts.

Section LoopProperties.

Import Node.
Local Open Scope string_scope.
Local Open Scope list_scope.

(** X9. On the authoring-tool topic and on the lifecycle-operate topic, a
    payload that is not a mapping makes [message_handle] raise
    [AttributeError] before any handler or the external processor is called;
    in the receive loop, a frame that decodes to such a payload therefore
    ends the loop with that exception. *)
Theorem non_mapping_payload_raises (topic : string) (payload : value)
  (frame : bytes) (script : list tick) (n : node) :
  topic = SCRATCH_TOPIC \/ topic = EXTENSIONS_OPERATE_TOPIC ->
  Runs.is_mapping payload = false ->
  Msgpack.unpackb frame = Ok payload ->
  _running n = true ->
  subscriber_closed n = false ->
  message_handle topic payload n = (Err AttributeError, n)
  /\ receive_loop message_handle (Frames [Utf8.encode topic; frame] :: script) n
     = (Raised AttributeError, n).
Proof.
  intros Ht Hm Hf Hrun Hopen.
  assert (H : message_handle topic payload n = (Err AttributeError, n)).
  { unfold message_handle, bind, lift.
    destruct Ht as [-> | ->]; destruct payload; try discriminate; reflexivity. }
  split; [exact H|].
  cbn [receive_loop]. rewrite Hrun. cbn [negb].
  unfold receive_one, bind, lift, Node.frame. rewrite Hopen. cbn [nth_error].
  assert (Hd : Utf8.decode (Utf8.encode topic) = Ok topic).
  { destruct Ht as [-> | ->]; vm_compute; reflexivity. }
  rewrite Hd, Hf, H. reflexivity.
Qed.

(** The integer 7 as payload on the authoring-tool topic. *)
Lemma non_mapping_payload_raises_int :
  message_handle SCRATCH_TOPIC (VInt 7) Scenario.observed
  = (Err AttributeError, Scenario.observed)
  /\ receive_loop message_handle
       (Frames [Utf8.encode SCRATCH_TOPIC; [byte_of 7]] :: [Nothing])
       Scenario.observed
     = (Raised AttributeError, Scenario.observed).
Proof.
  apply (non_mapping_payload_raises SCRATCH_TOPIC (VInt 7) [byte_of 7] [Nothing]
           Scenario.observed);
    [left; reflexivity | reflexivity | vm_compute; reflexivity
    | reflexivity | reflexivity].
Defined.

(** X10. On any other topic than the two well-known ones, [message_handle]
    accepts a payload of any kind and calls nothing but the external
    processor, once, when there is one. *)
Theorem other_topics_reach_processor_only (topic : string) (payload : value)
  (emp : option string) (n : node) :
  topic <> SCRATCH_TOPIC ->
  topic <> EXTENSIONS_OPERATE_TOPIC ->
  external_message_processor n = processor emp ->
  message_handle topic payload n
  = (Ok tt,
     add_calls match emp with
               | Some p => [Invoke p [VStr topic; payload]]
               | None => []
               end n).
Proof.
  intros H1 H2 Hp. apply String.eqb_neq in H1, H2.
  unfold message_handle, bind, ret. rewrite H1, H2, Hp.
  destruct emp; cbn; [reflexivity|].
  now rewrite LoopFacts.add_calls_nil.
Qed.

(** A list as payload on the notification topic. *)
Lemma other_topics_reach_processor_only_list :
  message_handle NOTIFICATION_TOPIC (VList [VInt 1]) Scenario.observed
  = (Ok tt,
     add_calls [Invoke "processor" [VStr NOTIFICATION_TOPIC; VList [VInt 1]]]
       Scenario.observed).
Proof.
  apply (other_topics_reach_processor_only NOTIFICATION_TOPIC (VList [VInt 1])
           (Some "processor") Scenario.observed);
    [discriminate | discriminate | reflexivity].
Defined.

(** X11. Whatever the topic, the payload and the external processor,
    [message_handle] changes nothing of the node but the calls it makes:
    it sends and subscribes nothing, leaves the registry, the identity and
    the running flag alone, and closes no channel. *)
Theorem message_handle_only_calls (topic : string) (payload : value) (n : node) :
  let n' := snd (message_handle topic payload n) in
  sent n' = sent n
  /\ subscribed n' = subscribed n
  /\ _handlers n' = _handlers n
  /\ EXTENSION_ID n' = EXTENSION_ID n
  /\ _running n' = _running n
  /\ publisher_closed n' = publisher_closed n
  /\ subscriber_closed n' = subscriber_closed n
  /\ exists cs, calls n' = calls n ++ cs.
Proof.
  intros n'. subst n'.
  destruct (LoopFacts.message_handle_calls_only topic payload n) as [cs ->].
  repeat split; try reflexivity. exists cs. reflexivity.
Qed.

End LoopProperties.

(* ------------------------------------------------------------------ *)
(** ** Further properties of the receive loop and of the constructor *)

Module DrainFacts.
Import Node Runs.
Local Open Scope string_scope.
Local Open Scope list_scope.

Lemma decode_encode (t : string) :
  Utf8.valid (Utf8.encode t) = true -> Utf8.decode (Utf8.encode t) = Ok t.
Proof.
  intros H. unfold Utf8.decode. rewrite H. unfold Utf8.encode.
  now rewrite string_of_list_ascii_of_string.
Qed.

(** One turn of the loop on a well-formed message. *)
Lemma receive_loop_message (t : string) (d : dict value) (fr : bytes)
  (emp : option string) (script : list tick) (n : node) :
  _running n = true ->
  subscriber_closed n = false ->
  external_message_processor n = processor emp ->
  Utf8.valid (Utf8.encode t) = true ->
  Msgpack.unpackb fr = Ok (VDict d) ->
  receive_loop message_handle (Frames [Utf8.encode t; fr] :: script) n
  = receive_loop message_handle script
      (add_calls (routed n.(EXTENSION_ID) emp t d) n).
Proof.
  intros Hrun Hopen Hp Ht Hf.
  cbn [receive_loop]. rewrite Hrun. cbn [negb].
  unfold receive_one, bind, lift, frame. rewrite Hopen. cbn [nth_error].
  rewrite (decode_encode t Ht), Hf.
  now rewrite (LoopFacts.message_handle_routed n emp t d Hp).
Qed.

Lemma frame_of_decodes (d : dict value) :
  Msgpack.supported (VDict d) = true ->
  Msgpack.height (VDict d) <= Msgpack.DEFAULT_RECURSE_LIMIT + 1 ->
  Msgpack.unpackb (Scenario.frame_of d) = Ok (VDict d).
Proof.
  intros Hs Hh. destruct (CodecFacts.pack_total _ _ Hs Hh) as [fr Hf].
  unfold Scenario.frame_of.
  change (Msgpack.pack (VDict d) Msgpack.DEFAULT_RECURSE_LIMIT)
    with (Msgpack.packb (VDict d)) in Hf.
  rewrite Hf. now apply CodecFacts.unpackb_packb.
Qed.

Lemma drain (msgs : list (string * dict value)) (emp : option string) :
  Forall deliverable msgs ->
  forall n,
    _running n = true ->
    subscriber_closed n = false ->
    external_message_processor n = processor emp ->
    receive_loop message_handle (map (fun m => Frames (Runs.frames_of m)) msgs) n
    = (Waiting,
       add_calls (List.concat (map (fun m => routed n.(EXTENSION_ID) emp (fst m) (snd m))
                            msgs)) n).
Proof.
  induction 1 as [|[t d] msgs (Ht & Hs & Hh) _ IH]; intros n Hrun Hopen Hp.
  - cbn [map List.concat receive_loop]. rewrite Hrun. cbn [negb].
    now rewrite LoopFacts.add_calls_nil.
  - cbn [map List.concat fst snd Runs.frames_of] in *.
    rewrite (receive_loop_message t d _ emp _ n Hrun Hopen Hp Ht
               (frame_of_decodes d Hs Hh)).
    rewrite IH by assumption.
    now rewrite LoopFacts.add_calls_app.
Qed.

Lemma idle_turns (handle : string -> value -> M unit) (f : string) (k : nat) :
  forall n,
    _running n = true ->
    subscriber_closed n = false ->
    receive_loop_idle_addition n = Func f ->
    receive_loop handle (repeat Nothing k) n
    = (Waiting, add_calls (repeat (Invoke f []) k) n).
Proof.
  induction k as [|k IH]; intros n Hrun Hopen Hf; cbn [repeat receive_loop];
    rewrite Hrun; cbn [negb].
  - now rewrite LoopFacts.add_calls_nil.
  - rewrite Hopen. unfold idle. rewrite Hf. cbn [obj_truthy invoke modify].
    rewrite IH by assumption.
    rewrite LoopFacts.add_call_as_calls, LoopFacts.add_calls_app. reflexivity.
Qed.

Lemma subscribe_to_log (topics : list string) : forall n,
  subscribed (subscribe_to topics n) = subscribed n ++ map Utf8.encode topics
  /\ subscriber_closed (subscribe_to topics n) = subscriber_closed n.
Proof.
  induction topics as [|t topics IH]; intros n; cbn.
  - now rewrite app_nil_r.
  - destruct (IH (add_subscribed (Utf8.encode t) n)) as [H1 H2].
    unfold subscribe_to in *. rewrite H1, H2. cbn. now rewrite <- app_assoc.
Qed.

Lemma subscribe_all_strings (topics : list string) (rest : list value) :
  forall n,
    subscriber_closed n = false ->
    subscribe_all (map VStr topics ++ rest) n
    = subscribe_all rest (subscribe_to topics n).
Proof.
  induction topics as [|t topics IH]; intros n Hopen; [reflexivity|].
  cbn [map app subscribe_all]. unfold bind at 1. cbn [set_subscriber_topic].
  rewrite Hopen. apply IH. exact Hopen.
Qed.

End DrainFacts.

Section DrainProperties.

Import Node.
Local Open Scope string_scope.
Local Open Scope list_scope.

(** X12. A burst of well-formed messages is drained entirely and in
    arrival order: the receive loop hands each message to [message_handle]
    before it reads the next, and is left waiting with the calls of all of
    them, in order. *)
Theorem burst_is_drained_in_order (msgs : list (string * dict value))
  (emp : option string) (n : node) :
  Forall Runs.deliverable msgs ->
  _running n = true ->
  subscriber_closed n = false ->
  external_message_processor n = processor emp ->
  receive_loop message_handle (map (fun m => Frames (Runs.frames_of m)) msgs) n
  = (Waiting,
     add_calls (List.concat (map (fun m => routed n.(EXTENSION_ID) emp (fst m) (snd m))
                          msgs)) n).
Proof. intros H Hrun Hopen Hp. now apply DrainFacts.drain. Qed.

(** Three messages, for this node, for another and on another topic. *)
Lemma burst_is_drained_in_order_three :
  receive_loop message_handle
    (map (fun m => Frames (Runs.frames_of m))
       [(SCRATCH_TOPIC, Scenario.hello "eim");
        (SCRATCH_TOPIC, Scenario.hello "other");
        (EXTENSIONS_OPERATE_TOPIC, Scenario.hello "eim")]) Scenario.observed
  = (Waiting,
     add_calls
       (List.concat (map (fun m => routed Scenario.observed.(EXTENSION_ID)
                                (Some "processor") (fst m) (snd m))
                  [(SCRATCH_TOPIC, Scenario.hello "eim");
                   (SCRATCH_TOPIC, Scenario.hello "other");
                   (EXTENSIONS_OPERATE_TOPIC, Scenario.hello "eim")]))
       Scenario.observed).
Proof.
  apply (burst_is_drained_in_order
           [(SCRATCH_TOPIC, Scenario.hello "eim");
            (SCRATCH_TOPIC, Scenario.hello "other");
            (EXTENSIONS_OPERATE_TOPIC, Scenario.hello "eim")]
           (Some "processor") Scenario.observed);
    [ repeat constructor; vm_compute; first [reflexivity | discriminate]
    | reflexivity | reflexivity | reflexivity ].
Defined.

(** X13. [terminate] clears the running flag and closes both channels and
    the context; afterwards [receive_loop] returns at once without reading
    anything, whatever is queued, and a second [terminate] changes
    nothing more. *)
Theorem terminated_is_absorbing (handle : string -> value -> M unit)
  (script : list tick) (n : node) :
  let n' := snd (terminate n) in
  is_running n' = false
  /\ publisher_closed n' = true
  /\ subscriber_closed n' = true
  /\ context_terminated n' = true
  /\ receive_loop handle script n' = (Returned, n')
  /\ snd (terminate n') = n'.
Proof.
  intros n'. subst n'. repeat split; try reflexivity.
  apply NodeFacts.receive_loop_stopped. reflexivity.
Qed.

(** X14. A message of fewer than two frames ends the receive loop with
    [IndexError] (its topic frame, if it has one, being valid UTF-8), and the
    turns queued behind it are not read. *)
Theorem short_message_raises (handle : string -> value -> M unit)
  (data : list bytes) (script : list tick) (n : node) :
  _running n = true ->
  subscriber_closed n = false ->
  (List.length data < 2)%nat ->
  (forall f0, nth_error data 0 = Some f0 -> Utf8.valid f0 = true) ->
  receive_loop handle (Frames data :: script) n = (Raised IndexError, n).
Proof.
  intros Hrun Hopen Hlen Hv.
  cbn [receive_loop]. rewrite Hrun. cbn [negb].
  unfold receive_one, bind, lift, frame. rewrite Hopen.
  destruct data as [|f0 [|f1 data]]; cbn [nth_error List.length] in *;
    [reflexivity | | lia].
  unfold Utf8.decode. rewrite (Hv f0 eq_refl). reflexivity.
Qed.

(** A topic frame without payload frame. *)
Lemma short_message_raises_topic_only :
  receive_loop message_handle
    (Frames [Utf8.encode SCRATCH_TOPIC] :: Scenario.corrupt_then_good)
    Scenario.observed
  = (Raised IndexError, Scenario.observed).
Proof.
  apply (short_message_raises message_handle [Utf8.encode SCRATCH_TOPIC]
           Scenario.corrupt_then_good Scenario.observed);
    [reflexivity | reflexivity | cbn; lia |].
  intros f0 H. cbn in H. injection H as <-. vm_compute. reflexivity.
Defined.

(** X15. While nothing arrives, the idle hook is called exactly once per
    turn of the loop: after [k] empty polls it has been called [k] times,
    and nothing else has been called. *)
Theorem idle_hook_once_per_turn (handle : string -> value -> M unit)
  (f : string) (k : nat) (n : node) :
  _running n = true ->
  subscriber_closed n = false ->
  receive_loop_idle_addition n = Func f ->
  receive_loop handle (repeat Nothing k) n
  = (Waiting, add_calls (repeat (Invoke f []) k) n).
Proof. intros. now apply DrainFacts.idle_turns. Qed.

(** Three empty polls of a node whose idle hook is [tick]. *)
Lemma idle_hook_once_per_turn_three :
  receive_loop message_handle (repeat Nothing 3)
    (connected "" (Data VNone) (Func "tick"))
  = (Waiting,
     add_calls (repeat (Invoke "tick" []) 3)
       (connected "" (Data VNone) (Func "tick"))).
Proof.
  apply (idle_hook_once_per_turn message_handle "tick" 3
           (connected "" (Data VNone) (Func "tick"))); reflexivity.
Defined.

(** X16. When [terminate] is issued from the owner's side while the loop
    sleeps in an idle turn, the loop returns normally at its next test of
    the running flag, with both channels closed, and reads none of the
    turns that were still queued. *)
Theorem terminate_during_idle_returns (handle : string -> value -> M unit)
  (pre rest : list tick) (n n1 : node) :
  receive_loop handle pre n = (Waiting, n1) ->
  subscriber_closed n1 = false ->
  implb (obj_truthy n1.(receive_loop_idle_addition))
        (callable n1.(receive_loop_idle_addition)) = true ->
  exists n2,
    receive_loop handle (pre ++ NothingTerminated :: rest) n = (Returned, n2)
    /\ n2 = snd (terminate (snd (idle n1))).
Proof.
  intros Hpre Hsub Hidle.
  pose proof (NodeFacts.receive_loop_waiting _ _ _ _ Hpre) as Hrun.
  destruct (NodeFacts.idle_ok n1 Hidle) as [cs Hcs].
  rewrite NodeFacts.receive_loop_app, Hpre.
  cbn [receive_loop]. rewrite Hrun, Hsub. cbn [negb]. rewrite Hcs.
  eexists. split; [|reflexivity].
  apply NodeFacts.receive_loop_stopped. reflexivity.
Qed.

(** A [terminate] after one idle turn, with messages still queued. *)
Lemma terminate_during_idle_returns_queued :
  exists n2,
    receive_loop message_handle
      ([Nothing] ++ NothingTerminated :: Scenario.corrupt_then_good)
      Scenario.observed
    = (Returned, n2)
    /\ n2 = snd (terminate (snd (idle Scenario.observed))).
Proof.
  apply (terminate_during_idle_returns message_handle [Nothing]
           Scenario.corrupt_then_good Scenario.observed Scenario.observed);
    reflexivity.
Defined.

(** X17. The constructor subscribes to the topics of [subscriber_list] in
    order; at the first topic that is not a string it raises [TypeError],
    the topics before it having been registered on the subscriber. *)
Theorem constructor_subscribes_in_order (nm : string) (emp hook : pyobj)
  (topics : list string) (bad : value) (rest : list value) :
  is_str bad = false ->
  (fst (AdapterNode nm (map VStr topics) emp hook) = Ok tt
   /\ subscribed (snd (AdapterNode nm (map VStr topics) emp hook))
      = map Utf8.encode topics)
  /\ (fst (AdapterNode nm (map VStr topics ++ bad :: rest) emp hook) = Err TypeError
      /\ subscribed (snd (AdapterNode nm (map VStr topics ++ bad :: rest) emp hook))
         = map Utf8.encode topics).
Proof.
  intros Hbad. unfold AdapterNode.
  pose proof (DrainFacts.subscribe_to_log topics (connected nm emp hook)) as [Hl Hc].
  split.
  - rewrite <- (app_nil_r (map VStr topics)).
    rewrite DrainFacts.subscribe_all_strings by reflexivity.
    cbn [subscribe_all ret fst snd]. split; [reflexivity | exact Hl].
  - rewrite DrainFacts.subscribe_all_strings by reflexivity.
    cbn [subscribe_all]. unfold bind.
    destruct bad; try discriminate; cbn; split; try reflexivity; exact Hl.
Qed.

(** The default topics, followed by a number. *)
Lemma constructor_subscribes_in_order_default :
  (fst (AdapterNode "" (map VStr [SCRATCH_TOPIC; EXTENSIONS_OPERATE_TOPIC])
          (Data VNone) (Data VNone)) = Ok tt
   /\ subscribed (snd (AdapterNode "" (map VStr [SCRATCH_TOPIC; EXTENSIONS_OPERATE_TOPIC])
                         (Data VNone) (Data VNone)))
      = map Utf8.encode [SCRATCH_TOPIC; EXTENSIONS_OPERATE_TOPIC])
  /\ (fst (AdapterNode ""
             (map VStr [SCRATCH_TOPIC; EXTENSIONS_OPERATE_TOPIC] ++ VInt 3 :: [])
             (Data VNone) (Data VNone)) = Err TypeError
      /\ subscribed (snd (AdapterNode ""
                            (map VStr [SCRATCH_TOPIC; EXTENSIONS_OPERATE_TOPIC]
                             ++ VInt 3 :: [])
                            (Data VNone) (Data VNone)))
         = map Utf8.encode [SCRATCH_TOPIC; EXTENSIONS_OPERATE_TOPIC]).
Proof.
  apply (constructor_subscribes_in_order "" (Data VNone) (Data VNone)
           [SCRATCH_TOPIC; EXTENSIONS_OPERATE_TOPIC] (VInt 3) []).
  reflexivity.
Defined.

(** X18. A message that one AdapterNode publishes on a string topic is,
    once the receive loop of another node has read the frames sent, routed
    by that node on the same topic with the stamped payload: the identity
    filter of the receiver sees the identity the sender stamped. *)
Theorem published_message_is_routed (a b : node) (m d : dict value) (t : string)
  (emp : option string) :
  publisher_closed a = false ->
  dict_get m "topic" = Some (VStr t) ->
  t <> EmptyString ->
  Utf8.valid (Utf8.encode t) = true ->
  dict_get m "payload" = Some (VDict d) ->
  Msgpack.supported (VDict (stamped a.(EXTENSION_ID) d)) = true ->
  Msgpack.height (VDict (stamped a.(EXTENSION_ID) d))
  <= Msgpack.DEFAULT_RECURSE_LIMIT + 1 ->
  _running b = true ->
  subscriber_closed b = false ->
  external_message_processor b = processor emp ->
  exists frames,
    publish (VDict m) a = (Ok tt, add_sent frames a)
    /\ receive_loop message_handle [Frames frames] b
       = (Waiting,
          add_calls (routed b.(EXTENSION_ID) emp t (stamped a.(EXTENSION_ID) d)) b).
Proof.
  intros Hopen Ht Hne Hv Hp Hs Hh Hrun Hsub Hemp.
  destruct (CodecFacts.pack_total _ _ Hs Hh) as [fr Hf].
  exists [Utf8.encode t; fr]. split.
  - rewrite (PublishFacts.publish_as_publish_payload m d a Hp).
    unfold get_or_none. rewrite Ht. cbn [truthy].
    apply String.eqb_neq in Hne. rewrite Hne. cbn [negb].
    now apply PublishFacts.publish_payload_sends.
  - rewrite (DrainFacts.receive_loop_message t _ fr emp [] b Hrun Hsub Hemp Hv
               (CodecFacts.unpackb_packb _ _ Hs Hf)).
    cbn [receive_loop add_calls _running]. now rewrite Hrun.
Qed.

(** A payload without identity, published on the authoring-tool topic and
    read by a node of the same identity. *)
Lemma published_message_is_routed_back :
  exists frames,
    publish (VDict [("topic", VStr SCRATCH_TOPIC);
                    ("payload", VDict [("content", VStr "hello")])]) Scenario.plain
    = (Ok tt, add_sent frames Scenario.plain)
    /\ receive_loop message_handle [Frames frames] Scenario.observed
       = (Waiting,
          add_calls (routed Scenario.observed.(EXTENSION_ID) (Some "processor")
                       SCRATCH_TOPIC
                       (stamped Scenario.plain.(EXTENSION_ID)
                          [("content", VStr "hello")]))
            Scenario.observed).
Proof.
  apply (published_message_is_routed Scenario.plain Scenario.observed
           [("topic", VStr SCRATCH_TOPIC);
            ("payload", VDict [("content", VStr "hello")])]
           [("content", VStr "hello")] SCRATCH_TOPIC (Some "processor"));
    try reflexivity; try discriminate; vm_compute; first [reflexivity | discriminate].
Defined.

End DrainProperties.

(* ------------------------------------------------------------------ *)
(** ** Further properties of the rate limiter *)

Section BucketProperties.

Import Bucket.
Local Open Scope Q_scope.

(** X19. A request larger than the capacity is never granted: on a bucket
    whose count is within [0, capacity], with a fill rate that is not
    negative and a clock that has not run backwards, [consume(n)] with
    [n > capacity] returns [False] and takes nothing. *)
Theorem oversize_never_granted (n t now : Q) (b : TokenBucket) :
  BucketFacts.sound t b ->
  t <= now ->
  b.(capacity) < n ->
  consume n now b = (false, snd (get_tokens now b)).
Proof.
  intros Hs Hnow Hn.
  pose proof (BucketFacts.get_tokens_sound t now b Hs Hnow) as (_ & (_ & Hc) & _).
  unfold consume. destruct (get_tokens now b) as [current b1] eqn:E.
  assert (Hcur : current = _tokens b1).
  { unfold get_tokens in E.
    destruct (Qlt_bool (_tokens b) (capacity b)); injection E as <- <-; reflexivity. }
  assert (Hcap : capacity b1 = capacity b).
  { unfold get_tokens in E.
    destruct (Qlt_bool (_tokens b) (capacity b)); injection E as <- <-; reflexivity. }
  cbn [snd] in *. destruct (Qle_bool n current) eqn:En; [|reflexivity].
  apply Qle_bool_iff in En. rewrite Hcur in En. rewrite Hcap in Hc. lra.
Qed.

(** A request of 81 tokens on the bucket of the example, after an hour. *)
Lemma oversize_never_granted_81 :
  consume 81 3600 (init 80 (1 # 2) 0)
  = (false, snd (get_tokens 3600 (init 80 (1 # 2) 0))).
Proof.
  apply (oversize_never_granted 81 0 3600 (init 80 (1 # 2) 0)).
  - repeat split; vm_compute; discriminate.
  - vm_compute. discriminate.
  - vm_compute. reflexivity.
Defined.





(** X22. No sequence of reads and consumes changes the capacity or the
    fill rate, and the timestamp is only ever set to a clock reading of one
    of the operations. *)
Theorem configuration_is_fixed (ops : list (op * Q)) (b : TokenBucket) :
  capacity (run ops b) = capacity b
  /\ fill_rate (run ops b) = fill_rate b
  /\ (timestamp (run ops b) = timestamp b
      \/ In (timestamp (run ops b)) (map snd ops)).
Proof.
  revert b. induction ops as [|[o now] ops IH]; intros b; cbn [run map snd].
  - auto.
  - assert (Hstep : capacity (step o now b) = capacity b
                    /\ fill_rate (step o now b) = fill_rate b
                    /\ (timestamp (step o now b) = timestamp b
                        \/ timestamp (step o now b) = now)).
    { destruct o as [n|]; cbn [step]; unfold consume, get_tokens;
        destruct (Qlt_bool (_tokens b) (capacity b)); cbn;
        try destruct (Qle_bool n _); cbn; auto. }
    destruct Hstep as (Hc & Hr & Ht).
    destruct (IH (step o now b)) as (Hc' & Hr' & Ht').
    rewrite Hc', Hr', Hc, Hr. repeat split.
    destruct Ht' as [Ht' | Ht']; [|right; now right].
    rewrite Ht'. destruct Ht as [-> | ->]; [now left | right; now left].
Qed.

End BucketProperties.

(* ------------------------------------------------------------------ *)
(** ** Properties of the helpers of [utils.py] *)

Section UtilsProperties.

Import Utils.
Local Open Scope string_scope.
Local Open Scope list_scope.

(** X23. [get_python3_path] returns the setting [PYTHON3_PATH] whenever it
    is truthy, on every platform; without it, it returns a path on Darwin,
    Windows and Linux only, and on any other platform stops on the
    unassigned local [path]. *)
Theorem python3_path_cases (setting : value) (system : string) (v : value) :
  (get_python3_path setting system = Returns v
   <-> (truthy setting = true /\ v = setting)
       \/ (truthy setting = false
           /\ ((system = "Darwin" /\ v = VStr "/usr/local/bin/python3")
               \/ (system = "Windows" /\ v = VStr "python")
               \/ (system = "Linux" /\ v = VStr "/usr/bin/python3"))))
  /\ (get_python3_path setting system = UnboundLocalError
      <-> truthy setting = false
          /\ system <> "Darwin" /\ system <> "Windows" /\ system <> "Linux").
Proof.
  unfold get_python3_path.
  destruct (truthy setting) eqn:Ht.
  - split; split.
    + intros [= <-]. now left.
    + intros [[_ ->] | [H _]]; [reflexivity | discriminate].
    + discriminate.
    + intros [H _]. discriminate.
  - destruct (String.eqb_spec system "Linux") as [->|Hl];
      [|destruct (String.eqb_spec system "Windows") as [->|Hw];
        [|destruct (String.eqb_spec system "Darwin") as [->|Hd]]];
      cbn; (split; split);
      try discriminate;
      try (intros [= <-]; right; split; [reflexivity|]; tauto);
      try (intros [[H _] | [_ [[H ->] | [[H ->] | [H ->]]]]];
           first [discriminate | reflexivity | congruence]);
      try (intros (_ & H1 & H2 & H3); congruence);
      try (intros _; repeat split; congruence).
Qed.

(** X24. [open_path_in_system_file_manager] launches [open] on Darwin,
    [xdg-open] on Linux and [explorer] on Windows, each with the path as
    only argument, and on any other platform stops on the unassigned local
    [cmd] before it launches anything. *)
Theorem file_manager_cases (path system : string) (argv : list string) :
  (open_path_in_system_file_manager path system = Returns argv
   <-> (system = "Darwin" /\ argv = ["open"; path])
       \/ (system = "Linux" /\ argv = ["xdg-open"; path])
       \/ (system = "Windows" /\ argv = ["explorer"; path]))
  /\ (open_path_in_system_file_manager path system = UnboundLocalError
      <-> system <> "Darwin" /\ system <> "Linux" /\ system <> "Windows").
Proof.
  unfold open_path_in_system_file_manager.
  destruct (String.eqb_spec system "Windows") as [->|Hw];
    [|destruct (String.eqb_spec system "Linux") as [->|Hl];
      [|destruct (String.eqb_spec system "Darwin") as [->|Hd]]];
    cbn; (split; split);
    try discriminate;
    try (intros [= <-]; tauto);
    try (intros [[H ->] | [[H ->] | [H ->]]];
         first [discriminate | reflexivity | congruence]);
    try (intros (H1 & H2 & H3); congruence);
    try (intros _; repeat split; congruence).
Qed.

End UtilsProperties.
